(** * Object storage gateway: path resolution, ACL policies, access checks

    A shallow embedding of [server/objectStorage.ts] and [server/objectAcl.ts].

    - JavaScript strings are [string]; the operations used by the source
      ([startsWith], [endsWith], [slice], [split], [join], template
      concatenation, [===]) work unit by unit and are written out below.
    - [throw] is the [Throw] constructor of [Result]; [async] code that talks
      to the S3 client threads the [Backend] explicitly (monad [M]).
    - [process.env] is the record [Env].
    - [JSON.stringify] / [JSON.parse] belong to the platform, not to the
      repository: they are the two methods of the class [JSON]. *)

From Stdlib Require Import String Ascii ZArith List Bool Lia.
From stdpp Require Import base option gmap strings.

Import ListNotations.
Local Open Scope list_scope.
Local Open Scope string_scope.

(** ** Strings as the source uses them *)

(** [s.startsWith(p)]. *)
Definition startsWith (s p : string) : bool := String.prefix p s.

(** [s.slice(n)] for [0 <= n]: the string without its first [n] units. *)
Fixpoint slice (n : nat) (s : string) : string :=
  match n, s with
  | O, _ => s
  | S _, EmptyString => EmptyString
  | S n', String _ s' => slice n' s'
  end.

(** [s.endsWith(p)]. *)
Definition endsWith (s p : string) : bool :=
  (String.length p <=? String.length s)%nat
  && String.eqb (slice (String.length s - String.length p) s) p.

(** [s.split(sep)] for a one-unit separator: never the empty list, and
    [""] splits into [[""]]. *)
Fixpoint split (sep : ascii) (s : string) : list string :=
  match s with
  | EmptyString => [EmptyString]
  | String c s' =>
      if Ascii.eqb c sep then EmptyString :: split sep s'
      else match split sep s' with
           | [] => [String c EmptyString]
           | w :: ws => String c w :: ws
           end
  end.

(** [parts.join(sep)]. *)
Definition join (sep : string) (parts : list string) : string :=
  String.concat sep parts.

(** [s.length > 0], the predicate of [filter(p => p.length > 0)]. *)
Definition nonEmpty (s : string) : bool := negb (String.eqb s "").

(** ** Thrown values and results *)

(** What the code can throw: its own [ObjectNotFoundError] class, a plain
    [new Error(message)], the [SyntaxError] of [JSON.parse], and an error of
    the S3 client, of which the source inspects [name] and
    [$metadata.httpStatusCode]. *)
Inductive Thrown : Type :=
| ObjectNotFoundError
| Error (message : string)
| SyntaxError (message : string)
| ServiceException (name : string) (httpStatusCode : option Z).

Inductive Result (A : Type) : Type :=
| Ok (a : A)
| Throw (e : Thrown).
Arguments Ok {A} a.
Arguments Throw {A} e.

(** [error.name]. *)
Definition error_name (e : Thrown) : string :=
  match e with
  | ObjectNotFoundError => "ObjectNotFoundError"
  | Error _ => "Error"
  | SyntaxError _ => "SyntaxError"
  | ServiceException n _ => n
  end.

(** [error.$metadata?.httpStatusCode]. *)
Definition error_httpStatusCode (e : Thrown) : option Z :=
  match e with
  | ServiceException _ c => c
  | _ => None
  end.

(** [error instanceof ObjectNotFoundError]. *)
Definition instanceof_ObjectNotFoundError (e : Thrown) : bool :=
  match e with
  | ObjectNotFoundError => true
  | _ => false
  end.

(** ** Configuration *)

(** [process.env.X || ""] for the two settings the modelled code reads. *)
Record Env : Type := {
  R2_BUCKET_NAME : string;
  PRIVATE_OBJECT_DIR : string
}.

Definition getPrivateObjectDir (env : Env) : Result string :=
  let dir := PRIVATE_OBJECT_DIR env in
  if String.eqb dir "" then
    Throw (Error "PRIVATE_OBJECT_DIR not set. Set PRIVATE_OBJECT_DIR env var.")
  else Ok dir.

Definition getBucketName (env : Env) : Result string :=
  if String.eqb (R2_BUCKET_NAME env) "" then
    Throw (Error "R2_BUCKET_NAME not set. Set R2_BUCKET_NAME env var.")
  else Ok (R2_BUCKET_NAME env).

(** ** Path resolution *)

Record ParsedPath : Type := {
  bucketName : string;
  objectName : string
}.

Definition invalid_path_message : string :=
  "Invalid path: must contain at least a bucket name or object name".

Definition parseObjectPath (env : Env) (path : string) : Result ParsedPath :=
  if negb (startsWith path "/") then
    match getBucketName env with
    | Ok b => Ok {| bucketName := b; objectName := path |}
    | Throw e => Throw e
    end
  else
    let pathParts := List.filter nonEmpty (split "/" path) in
    if (length pathParts <? 1)%nat then Throw (Error invalid_path_message)
    else if (length pathParts =? 1)%nat then
      match getBucketName env with
      | Ok b => Ok {| bucketName := b; objectName := nth 0 pathParts "" |}
      | Throw e => Throw e
      end
    else
      Ok {| bucketName := nth 0 pathParts "";
            objectName := join "/" (skipn 1 pathParts) |}.

(** ** The backend behind [objectStorageClient]

    The S3-compatible service is external to the repository.  An object is
    addressed by its resource path [<Bucket>/<Key>], which is also the form
    the source gives to [CopySource].  Besides its bytes an object carries
    the HTTP headers the source reads back from a HEAD response and the
    string-to-string slot for custom metadata.

    [faults] makes the client fallible: every request consumes one entry,
    and an entry [Some e] makes that request reject with [e] without
    touching [objects].  The empty list is a backend that answers every
    request. *)
Record StoredObject : Type := {
  Body : string;
  ContentType : option string;
  CacheControl : option string;
  ContentEncoding : option string;
  ContentDisposition : option string;
  Metadata : gmap string string;
  ETag : option string
}.

Record Backend : Type := {
  objects : gmap string StoredObject;
  faults : list (option Thrown)
}.

Definition resourcePath (bucket key : string) : string :=
  bucket ++ "/" ++ key.

(** Code that awaits the client: a state and error monad over [Backend]. *)
Definition M (A : Type) : Type := Backend -> Result A * Backend.

Definition ret {A} (a : A) : M A := fun b => (Ok a, b).

Definition throw {A} (e : Thrown) : M A := fun b => (Throw e, b).

Definition bind {A B} (m : M A) (k : A -> M B) : M B :=
  fun b =>
    match m b with
    | (Ok a, b') => k a b'
    | (Throw e, b') => (Throw e, b')
    end.

(** [try { m } catch (error) { h error }]. *)
Definition try_catch {A} (m : M A) (h : Thrown -> M A) : M A :=
  fun b =>
    match m b with
    | (Ok a, b') => (Ok a, b')
    | (Throw e, b') => h e b'
    end.

(** Synchronous code called from [async] code. *)
Definition lift {A} (r : Result A) : M A := fun b => (r, b).

Notation "'let*' x ':=' m 'in' k" := (bind m (fun x => k))
  (at level 10, x binder, m at level 200, k at level 200).

(** One request: the next pending fault, if any, is consumed. *)
Definition request {A} (answer : Backend -> Result A * Backend) : M A :=
  fun b =>
    match faults b with
    | Some e :: rest => (Throw e, {| objects := objects b; faults := rest |})
    | None :: rest => answer {| objects := objects b; faults := rest |}
    | [] => answer b
    end.

Record HeadObjectOutput : Type := {
  head_ContentType : option string;
  head_ContentLength : option nat;
  head_Metadata : option (gmap string string);
  head_CacheControl : option string;
  head_ContentEncoding : option string;
  head_ContentDisposition : option string;
  head_ETag : option string
}.

(** What a HEAD request reports about a stored object. *)
Definition headOf (o : StoredObject) : HeadObjectOutput :=
  {| head_ContentType := ContentType o;
     head_ContentLength := Some (String.length (Body o));
     head_Metadata := Some (Metadata o);
     head_CacheControl := CacheControl o;
     head_ContentEncoding := ContentEncoding o;
     head_ContentDisposition := ContentDisposition o;
     head_ETag := ETag o |}.

(** The rejection of a HEAD request for an object that is not there. *)
Definition notFound : Thrown := ServiceException "NotFound" (Some 404%Z).

(** [objectStorageClient.send(new HeadObjectCommand({Bucket, Key}))]. *)
Definition send_HeadObjectCommand (Bucket Key : string) : M HeadObjectOutput :=
  request (fun b =>
    match objects b !! resourcePath Bucket Key with
    | None => (Throw notFound, b)
    | Some o => (Ok (headOf o), b)
    end).

Record CopyObjectCommandInput : Type := {
  copy_Bucket : string;
  copy_Key : string;
  copy_CopySource : string;
  copy_Metadata : gmap string string;
  copy_ContentType : option string;
  copy_CacheControl : option string;
  copy_ContentEncoding : option string;
  copy_ContentDisposition : option string
}.

(** [objectStorageClient.send(new CopyObjectCommand({..., MetadataDirective:
    "REPLACE"}))]: the destination receives the bytes of the source and
    exactly the metadata and headers of the request. *)
Definition send_CopyObjectCommand (input : CopyObjectCommandInput) : M unit :=
  request (fun b =>
    match objects b !! copy_CopySource input with
    | None => (Throw (ServiceException "NoSuchKey" (Some 404%Z)), b)
    | Some src =>
        let copied :=
          {| Body := Body src;
             ContentType := copy_ContentType input;
             CacheControl := copy_CacheControl input;
             ContentEncoding := copy_ContentEncoding input;
             ContentDisposition := copy_ContentDisposition input;
             Metadata := copy_Metadata input;
             ETag := ETag src |} in
        (Ok tt,
         {| objects :=
              <[resourcePath (copy_Bucket input) (copy_Key input) := copied]>
                (objects b);
            faults := faults b |})
    end).

(** ** [S3ObjectWrapper] *)

Record S3Object : Type := {
  bucket : string;
  key : string
}.

Record ObjectMetadata : Type := {
  contentType : option string;
  size : option nat;
  metadata : option (gmap string string)
}.

Definition getMetadata (this : S3Object) : M ObjectMetadata :=
  try_catch
    (let* response := send_HeadObjectCommand (bucket this) (key this) in
     ret {| contentType := head_ContentType response;
            size := head_ContentLength response;
            metadata := head_Metadata response |})
    (fun error =>
       if String.eqb (error_name error) "NotFound"
          || bool_decide (error_httpStatusCode error = Some 404%Z)
       then throw ObjectNotFoundError
       else throw error).

(** ** Access-control policies ([objectAcl.ts]) *)

Definition ACL_POLICY_METADATA_KEY : string := "custom-acl-policy".

(** [enum ObjectAccessGroupType {}] declares no member.  The tag found in a
    stored rule is whatever the parsed JSON holds there; it is kept as the
    string that the template literal of [createObjectAccessGroup] prints. *)
Definition ObjectAccessGroupType : Type := string.

Record ObjectAccessGroup : Type := {
  type : ObjectAccessGroupType;
  id : string
}.

Inductive ObjectPermission : Type :=
| READ
| WRITE.

#[global] Instance ObjectPermission_eq_dec : EqDecision ObjectPermission.
Proof. solve_decision. Defined.

Record ObjectAclRule : Type := {
  group : ObjectAccessGroup;
  permission : ObjectPermission
}.

Inductive Visibility : Type :=
| public
| private.

#[global] Instance Visibility_eq_dec : EqDecision Visibility.
Proof. solve_decision. Defined.

(** [aclRules?: Array<ObjectAclRule>]: [None] is the missing property. *)
Record ObjectAclPolicy : Type := {
  owner : string;
  visibility : Visibility;
  aclRules : option (list ObjectAclRule)
}.

(** [Array.prototype.includes] on permissions. *)
Definition includes (xs : list ObjectPermission) (x : ObjectPermission) : bool :=
  existsb (fun y => bool_decide (y = x)) xs.

Definition isPermissionAllowed (requested granted : ObjectPermission) : bool :=
  if bool_decide (requested = READ) then includes [READ; WRITE] granted
  else bool_decide (granted = WRITE).

(** [abstract class BaseObjectAccessGroup]: an access group together with
    its membership query.  The repository has no subclass. *)
Record BaseObjectAccessGroup : Type := {
  base_group : ObjectAccessGroup;
  hasMember : string -> M bool
}.

(** The [switch] has no [case], only the throwing [default]. *)
Definition createObjectAccessGroup (group : ObjectAccessGroup)
  : Result BaseObjectAccessGroup :=
  Throw (Error ("Unknown access group type: " ++ type group)).

(** The platform's JSON codec, at the type the source gives to the value
    it stores and reads back.  [JSON_parse] throws on text that is not
    JSON. *)
Class JSON : Type := {
  JSON_stringify : ObjectAclPolicy -> string;
  JSON_parse : string -> Result ObjectAclPolicy
}.

Section ObjectAcl.
Context `{JSON}.

Definition setObjectAclPolicy (objectFile : S3Object)
    (aclPolicy : ObjectAclPolicy) : M unit :=
  (* Get current metadata *)
  let* currentMetadata :=
    try_catch
      (let* response := getMetadata objectFile in
       ret (default ∅ (metadata response)))
      (fun _ => ret ∅) in
  (* Update metadata with ACL policy *)
  let currentMetadata :=
    <[ACL_POLICY_METADATA_KEY := JSON_stringify aclPolicy]> currentMetadata in
  (* Get object metadata to preserve other properties *)
  let* headResponse :=
    try_catch
      (send_HeadObjectCommand (bucket objectFile) (key objectFile))
      (fun error =>
         if negb (String.eqb (error_name error) "NotFound")
            && negb (bool_decide (error_httpStatusCode error = Some 404%Z))
         then throw error
         else throw (Error ("Object not found: " ++ bucket objectFile
                              ++ "/" ++ key objectFile))) in
  let existingMetadata := default ∅ (head_Metadata headResponse) in
  (* {...existingMetadata, ...currentMetadata}: the later spread wins *)
  let updatedMetadata := currentMetadata ∪ existingMetadata in
  send_CopyObjectCommand
    {| copy_Bucket := bucket objectFile;
       copy_Key := key objectFile;
       copy_CopySource := bucket objectFile ++ "/" ++ key objectFile;
       copy_Metadata := updatedMetadata;
       copy_ContentType := head_ContentType headResponse;
       copy_CacheControl := head_CacheControl headResponse;
       copy_ContentEncoding := head_ContentEncoding headResponse;
       copy_ContentDisposition := head_ContentDisposition headResponse |}.

Definition getObjectAclPolicy (objectFile : S3Object)
  : M (option ObjectAclPolicy) :=
  try_catch
    (let* response := getMetadata objectFile in
     match metadata response ≫= (.!! ACL_POLICY_METADATA_KEY) with
     | None => ret None
     | Some aclPolicy =>
         (* !aclPolicy: the empty string is falsy as well *)
         if String.eqb aclPolicy "" then ret None
         else let* parsed := lift (JSON_parse aclPolicy) in
              ret (Some parsed)
     end)
    (fun _ => ret None).

(** The [for ... of] loop over the rules, in stored order. *)
Fixpoint aclRules_loop (userId : string)
    (requestedPermission : ObjectPermission)
    (rules : list ObjectAclRule) : M bool :=
  match rules with
  | [] => ret false
  | rule :: rest =>
      let* accessGroup := lift (createObjectAccessGroup (group rule)) in
      let* isMember := hasMember accessGroup userId in
      if isMember && isPermissionAllowed requestedPermission (permission rule)
      then ret true
      else aclRules_loop userId requestedPermission rest
  end.

Definition canAccessObject (userId : option string) (objectFile : S3Object)
    (requestedPermission : ObjectPermission) : M bool :=
  let* aclPolicy := getObjectAclPolicy objectFile in
  match aclPolicy with
  | None => ret false
  | Some aclPolicy =>
      if bool_decide (visibility aclPolicy = public)
         && bool_decide (requestedPermission = READ)
      then ret true
      else
        (* !userId: undefined, or the empty string *)
        match userId with
        | None => ret false
        | Some userId =>
            if String.eqb userId "" then ret false
            else if String.eqb (owner aclPolicy) userId then ret true
            else aclRules_loop userId requestedPermission
                   (default [] (aclRules aclPolicy))
        end
  end.

End ObjectAcl.

(** ** [ObjectStorageService] *)

Definition getObjectEntityFile (env : Env) (objectPath : string) : M S3Object :=
  if negb (startsWith objectPath "/objects/") then throw ObjectNotFoundError
  else
    let parts := split "/" (slice 1 objectPath) in
    if (length parts <? 2)%nat then throw ObjectNotFoundError
    else
      let entityId := join "/" (skipn 1 parts) in
      let* entityDir := lift (getPrivateObjectDir env) in
      let entityDir :=
        if negb (endsWith entityDir "/") then entityDir ++ "/" else entityDir in
      let objectEntityPath := entityDir ++ entityId in
      let* parsed := lift (parseObjectPath env objectEntityPath) in
      let object := {| bucket := bucketName parsed; key := objectName parsed |} in
      (* Check if object exists *)
      let* _ :=
        try_catch (getMetadata object)
          (fun error =>
             if instanceof_ObjectNotFoundError error then throw error
             else throw ObjectNotFoundError) in
      ret object.

(** ** The rest of [ObjectStorageService]

    From here on a unit of a string is a UTF-16 code unit below 256, which
    fixes the white space that [trim] removes. *)

(** White space and line terminators below 256: TAB, LF, VT, FF, CR, SP and
    NBSP. *)
Definition isWhiteSpace (c : ascii) : bool :=
  let n := nat_of_ascii c in
  ((9 <=? n)%nat && (n <=? 13)%nat) || (n =? 32)%nat || (n =? 160)%nat.

Fixpoint trimStart (s : string) : string :=
  match s with
  | EmptyString => EmptyString
  | String c rest => if isWhiteSpace c then trimStart rest else s
  end.

Fixpoint trimEnd (s : string) : string :=
  match s with
  | EmptyString => EmptyString
  | String c rest =>
      match trimEnd rest with
      | EmptyString => if isWhiteSpace c then EmptyString else String c ""
      | String d kept => String c (String d kept)
      end
  end.

(** [s.trim()]. *)
Definition trim (s : string) : string := trimEnd (trimStart s).

(** [Array.from(new Set(xs))]: every value once, in the order of its first
    insertion. *)
Definition setFrom (xs : list string) : list string :=
  fold_left
    (fun set x => if existsb (String.eqb x) set then set else (set ++ [x])%list)
    xs [].

Definition search_paths_not_set : string :=
  "PUBLIC_OBJECT_SEARCH_PATHS not set. Set PUBLIC_OBJECT_SEARCH_PATHS env var (comma-separated paths).".

(** The argument is [process.env.PUBLIC_OBJECT_SEARCH_PATHS || ""]. *)
Definition getPublicObjectSearchPaths (PUBLIC_OBJECT_SEARCH_PATHS : string)
  : Result (list string) :=
  let pathsStr := PUBLIC_OBJECT_SEARCH_PATHS in
  let paths :=
    setFrom (List.filter nonEmpty (List.map trim (split "," pathsStr))) in
  if (length paths =? 0)%nat then Throw (Error search_paths_not_set)
  else Ok paths.

(** The [for ... of] loop of [searchPublicObject]; [continue] is the
    recursive call. *)
Fixpoint searchPublicObject_loop (env : Env) (filePath : string)
    (searchPaths : list string) : M (option S3Object) :=
  match searchPaths with
  | [] => ret None
  | searchPath :: rest =>
      let fullPath := searchPath ++ "/" ++ filePath in
      let* parsed := lift (parseObjectPath env fullPath) in
      let object := {| bucket := bucketName parsed; key := objectName parsed |} in
      try_catch
        (let* _ := getMetadata object in ret (Some object))
        (fun error =>
           if instanceof_ObjectNotFoundError error
           then searchPublicObject_loop env filePath rest
           else throw error)
  end.

Definition searchPublicObject (env : Env) (PUBLIC_OBJECT_SEARCH_PATHS : string)
    (filePath : string) : M (option S3Object) :=
  let* searchPaths :=
    lift (getPublicObjectSearchPaths PUBLIC_OBJECT_SEARCH_PATHS) in
  searchPublicObject_loop env filePath searchPaths.

(** [new PutObjectCommand({Bucket, Key, Body, ContentType})]. *)
Record PutObjectCommandInput : Type := {
  put_Bucket : string;
  put_Key : string;
  put_Body : string;
  put_ContentType : option string
}.

(** [objectStorageClient.send(new PutObjectCommand(...))]: the object at the
    resource path, old or new, becomes the uploaded bytes with the given
    content type and nothing else; entity tags are opaque to the source and
    left out. *)
Definition send_PutObjectCommand (input : PutObjectCommandInput) : M unit :=
  request (fun b =>
    let uploaded :=
      {| Body := put_Body input;
         ContentType := put_ContentType input;
         CacheControl := None;
         ContentEncoding := None;
         ContentDisposition := None;
         Metadata := ∅;
         ETag := None |} in
    (Ok tt,
     {| objects :=
          <[resourcePath (put_Bucket input) (put_Key input) := uploaded]>
            (objects b);
        faults := faults b |})).

(** [contentType] is [None] when the caller leaves the parameter out. *)
Definition uploadFile (env : Env) (filePath : string) (fileBuffer : string)
    (contentType : option string) : M unit :=
  let contentType := default "application/octet-stream" contentType in
  let* privateObjectDir := lift (getPrivateObjectDir env) in
  let fullPath := privateObjectDir ++ "/" ++ filePath in
  let* parsed := lift (parseObjectPath env fullPath) in
  send_PutObjectCommand
    {| put_Bucket := bucketName parsed;
       put_Key := objectName parsed;
       put_Body := fileBuffer;
       put_ContentType := Some contentType |}.

(** [method: "GET" | "PUT" | "DELETE" | "HEAD"]. *)
Inductive Method : Type :=
| GET
| PUT
| DELETE
| HEAD.

(** The command handed to the presigner: its class and its [Bucket] and
    [Key]. *)
Record Command : Type := {
  command_class : Method;
  command_Bucket : string;
  command_Key : string
}.

(** [getSignedUrl(objectStorageClient, command, {expiresIn})] of
    [@aws-sdk/s3-request-presigner], a function of the platform. *)
Class Presigner : Type := {
  getSignedUrl : Command -> nat -> Result string
}.

(** The type of [method] leaves the [default] of the [switch] without a
    value to reach it. *)
Definition signObjectURL `{Presigner} (bucketName objectName : string)
    (method : Method) (ttlSec : nat) : Result string :=
  let command :=
    match method with
    | GET => {| command_class := GET; command_Bucket := bucketName;
                command_Key := objectName |}
    | PUT => {| command_class := PUT; command_Bucket := bucketName;
                command_Key := objectName |}
    | DELETE => {| command_class := DELETE; command_Bucket := bucketName;
                   command_Key := objectName |}
    | HEAD => {| command_class := HEAD; command_Bucket := bucketName;
                 command_Key := objectName |}
    end in
  getSignedUrl command ttlSec.

(** [objectId] is the value of [randomUUID()]. *)
Definition getObjectEntityUploadURL `{Presigner} (env : Env)
    (objectId : string) : Result string :=
  match getPrivateObjectDir env with
  | Throw e => Throw e
  | Ok privateObjectDir =>
      if String.eqb privateObjectDir "" then
        Throw (Error "PRIVATE_OBJECT_DIR not set. Set PRIVATE_OBJECT_DIR env var.")
      else
        let fullPath := privateObjectDir ++ "/uploads/" ++ objectId in
        match parseObjectPath env fullPath with
        | Throw e => Throw e
        | Ok parsed =>
            signObjectURL (bucketName parsed) (objectName parsed) PUT 900
        end
  end.

(** [haystack.includes(needle)]. *)
Definition includesText (haystack needle : string) : bool :=
  match String.index 0 needle haystack with
  | Some _ => true
  | None => false
  end.

(** [new URL(rawPath).pathname], a function of the platform; it throws on
    text that is not a URL. *)
Class URL : Type := {
  URL_pathname : string -> Result string
}.

Definition normalizeObjectEntityPath `{URL} (env : Env) (rawPath : string)
  : Result string :=
  (* Handle R2 public URLs *)
  if startsWith rawPath "https://"
     && includesText rawPath ".r2.cloudflarestorage.com"
  then
    match URL_pathname rawPath with
    | Throw e => Throw e
    | Ok rawObjectPath =>
        match getPrivateObjectDir env with
        | Throw e => Throw e
        | Ok objectEntityDir =>
            let objectEntityDir :=
              if negb (endsWith objectEntityDir "/")
              then objectEntityDir ++ "/" else objectEntityDir in
            if negb (startsWith rawObjectPath objectEntityDir)
            then Ok rawObjectPath
            else
              let entityId :=
                slice (String.length objectEntityDir) rawObjectPath in
              Ok ("/objects/" ++ entityId)
        end
    end
  else if negb (startsWith rawPath "https://") then Ok rawPath
  else Ok rawPath.

Section EntityPolicies.
Context `{JSON} `{URL}.

Definition trySetObjectEntityAclPolicy (env : Env) (rawPath : string)
    (aclPolicy : ObjectAclPolicy) : M string :=
  let* normalizedPath := lift (normalizeObjectEntityPath env rawPath) in
  if negb (startsWith normalizedPath "/") then ret normalizedPath
  else
    let* objectFile := getObjectEntityFile env normalizedPath in
    let* _ := setObjectAclPolicy objectFile aclPolicy in
    ret normalizedPath.

(** [requestedPermission ?? ObjectPermission.READ]. *)
Definition canAccessObjectEntity (userId : option string)
    (objectFile : S3Object) (requestedPermission : option ObjectPermission)
  : M bool :=
  canAccessObject userId objectFile (default READ requestedPermission).

End EntityPolicies.

(** ** User input ([textUtils.ts]) *)

(** The class [[\x00-\x08\x0B-\x0C\x0E-\x1F\x7F]]: the control units other
    than TAB, LF and CR. *)
Definition isControlUnit (c : ascii) : bool :=
  let n := nat_of_ascii c in
  (n <=? 8)%nat || ((11 <=? n)%nat && (n <=? 12)%nat)
  || ((14 <=? n)%nat && (n <=? 31)%nat) || (n =? 127)%nat.

(** [s.replace(/[\x00-\x08\x0B-\x0C\x0E-\x1F\x7F]/g, '')]. *)
Fixpoint removeControlUnits (s : string) : string :=
  match s with
  | EmptyString => EmptyString
  | String c rest =>
      if isControlUnit c then removeControlUnits rest
      else String c (removeControlUnits rest)
  end.

Definition lineFeed : ascii := "010"%char.

(** [s.replace(/\n{3,}/g, '\n\n')]: the greedy pattern matches each maximal
    run of three or more line feeds and two are written in its place, so of
    every run the first two line feeds are kept; [run] counts the line feeds
    of the current run already written. *)
Fixpoint limitLineFeeds (run : nat) (s : string) : string :=
  match s with
  | EmptyString => EmptyString
  | String c rest =>
      if Ascii.eqb c lineFeed then
        if (2 <=? run)%nat then limitLineFeeds run rest
        else String c (limitLineFeeds (S run) rest)
      else String c (limitLineFeeds 0 rest)
  end.

Definition sanitizeUserInput (text : string) : string :=
  if String.eqb text "" then text
  else
    (* Trim whitespace *)
    let sanitized := trim text in
    (* Remove null bytes and control characters except newlines and tabs *)
    let sanitized := removeControlUnits sanitized in
    (* Limit consecutive newlines to 2 *)
    limitLineFeeds 0 sanitized.

(** The line feeds a string begins with. *)
Fixpoint leadingLineFeeds (s : string) : nat :=
  match s with
  | EmptyString => 0
  | String c rest =>
      if Ascii.eqb c lineFeed then S (leadingLineFeeds rest) else 0
  end.

(** ** Text to speech ([deepgram.ts]) *)

Record TextToSpeechOptions : Type := {
  text : string;
  model : option string;
  voice : option string
}.

(** One [reader.read()] that is not the end of the stream: a chunk, or a
    rejection. *)
Inductive Read : Type :=
| Chunk (value : list Byte.byte)
| ReadRejects (e : Thrown).

(** What the Deepgram client does with a request: it rejects, or it
    resolves with a response that has no stream, or with a stream whose
    reads are the listed ones followed by the end of the stream. *)
Inductive SpeakOutcome : Type :=
| RequestRejects (e : Thrown)
| NoStream
| Stream (reads : list Read).

(** [deepgram.speak.request({text}, {model, encoding, container})] followed
    by [response.getStream()], functions of the SDK. *)
Class Deepgram : Type := {
  speak_request : string -> string -> SpeakOutcome
}.

(** The [while (true)] loop over [reader.read()]. *)
Fixpoint readChunks (reads : list Read) : Result (list (list Byte.byte)) :=
  match reads with
  | [] => Ok []
  | Chunk value :: rest =>
      match readChunks rest with
      | Ok chunks => Ok (value :: chunks)
      | Throw e => Throw e
      end
  | ReadRejects e :: _ => Throw e
  end.

(** [target.set(source, offset)] on a [Uint8Array]: out of bounds it throws
    a [RangeError]. *)
Definition Uint8Array_set (target source : list Byte.byte) (offset : nat)
  : Result (list Byte.byte) :=
  if (offset + length source <=? length target)%nat then
    Ok (take offset target ++ source
        ++ drop (offset + length source) target)%list
  else Throw (ServiceException "RangeError" None).

(** The [for ... of] loop that copies the chunks into [audioBuffer]. *)
Fixpoint copyChunks (chunks : list (list Byte.byte))
    (audioBuffer : list Byte.byte) (offset : nat) : Result (list Byte.byte) :=
  match chunks with
  | [] => Ok audioBuffer
  | chunk :: rest =>
      match Uint8Array_set audioBuffer chunk offset with
      | Ok written => copyChunks rest written (offset + length chunk)
      | Throw e => Throw e
      end
  end.

Definition generateAudioFromText `{Deepgram} (options : TextToSpeechOptions)
  : Result (list Byte.byte) :=
  let model := default "aura-asteria-en" (model options) in
  let attempt :=
    match speak_request (text options) model with
    | RequestRejects e => Throw e
    | NoStream => Throw (Error "Failed to get audio stream from Deepgram")
    | Stream reads =>
        match readChunks reads with
        | Throw e => Throw e
        | Ok chunks =>
            let totalLength :=
              fold_left (fun acc chunk => (acc + length chunk)%nat) chunks 0%nat in
            let audioBuffer := replicate totalLength Byte.x00 in
            copyChunks chunks audioBuffer 0
        end
    end in
  match attempt with
  | Ok audio => Ok audio
  | Throw _ => Throw (Error "Failed to generate audio with Deepgram")
  end.

(** ** A JSON codec for policies

    An instance of [JSON]: [stringify] prints a policy the way
    [JSON.stringify] prints an object with these properties (properties in
    declaration order, a missing [aclRules] left out, no white space), and
    [parse] reads that form back.  The theorems below hold for every
    instance; this one runs them on concrete objects. *)
Module PolicyJson.

Definition dquote : ascii := "034"%char.
Definition backslash : ascii := "092"%char.

Definition hexDigit (n : nat) : ascii :=
  match String.get n "0123456789abcdef" with
  | Some c => c
  | None => "0"%char
  end.

Definition hexValue (c : ascii) : option nat :=
  let n := nat_of_ascii c in
  if (48 <=? n)%nat && (n <=? 57)%nat then Some (n - 48)%nat
  else if (97 <=? n)%nat && (n <=? 102)%nat then Some (n - 87)%nat
  else if (65 <=? n)%nat && (n <=? 70)%nat then Some (n - 55)%nat
  else None.

(** The escape of one unit inside a JSON string. *)
Definition quoteChar (c : ascii) : string :=
  let n := nat_of_ascii c in
  if Ascii.eqb c dquote then String backslash (String dquote "")
  else if Ascii.eqb c backslash then String backslash (String backslash "")
  else if (n =? 8)%nat then String backslash "b"
  else if (n =? 9)%nat then String backslash "t"
  else if (n =? 10)%nat then String backslash "n"
  else if (n =? 12)%nat then String backslash "f"
  else if (n =? 13)%nat then String backslash "r"
  else if (n <? 32)%nat then
    String backslash
      ("u00" ++ String (hexDigit (n / 16)) (String (hexDigit (n mod 16)) ""))
  else String c "".

Fixpoint quoteBody (s : string) : string :=
  match s with
  | EmptyString => ""
  | String c s' => quoteChar c ++ quoteBody s'
  end.

Definition quote (s : string) : string :=
  String dquote (quoteBody s ++ String dquote "").

(** The unit a one-letter escape stands for. *)
Definition unescape (c : ascii) : option ascii :=
  if Ascii.eqb c dquote then Some dquote
  else if Ascii.eqb c backslash then Some backslash
  else if Ascii.eqb c "/" then Some "/"%char
  else if Ascii.eqb c "b" then Some "008"%char
  else if Ascii.eqb c "t" then Some "009"%char
  else if Ascii.eqb c "n" then Some "010"%char
  else if Ascii.eqb c "f" then Some "012"%char
  else if Ascii.eqb c "r" then Some "013"%char
  else None.

(** Reads a JSON string after its opening quote: the decoded text and what
    follows the closing quote. *)
Fixpoint unquoteBody (s : string) : option (string * string) :=
  match s with
  | EmptyString => None
  | String c rest =>
      if Ascii.eqb c dquote then Some ("", rest)
      else if Ascii.eqb c backslash then
        match rest with
        | EmptyString => None
        | String e rest1 =>
            if Ascii.eqb e "u" then
              match rest1 with
              | String h1 (String h2 (String h3 (String h4 rest2))) =>
                  match hexValue h1, hexValue h2, hexValue h3, hexValue h4 with
                  | Some 0%nat, Some 0%nat, Some x, Some y =>
                      match unquoteBody rest2 with
                      | Some (t, r) =>
                          Some (String (ascii_of_nat (x * 16 + y)) t, r)
                      | None => None
                      end
                  | _, _, _, _ => None
                  end
              | _ => None
              end
            else
              match unescape e, unquoteBody rest1 with
              | Some d, Some (t, r) => Some (String d t, r)
              | _, _ => None
              end
        end
      else if (nat_of_ascii c <? 32)%nat then None
      else
        match unquoteBody rest with
        | Some (t, r) => Some (String c t, r)
        | None => None
        end
  end.

(** [expect lit s]: [s] without its prefix [lit]. *)
Definition expect (lit s : string) : option string :=
  if String.prefix lit s then Some (slice (String.length lit) s) else None.

Definition printPermission (p : ObjectPermission) : string :=
  match p with READ => "read" | WRITE => "write" end.

Definition parsePermission (s : string) : option ObjectPermission :=
  if String.eqb s "read" then Some READ
  else if String.eqb s "write" then Some WRITE
  else None.

Definition printVisibility (v : Visibility) : string :=
  match v with public => "public" | private => "private" end.

Definition parseVisibility (s : string) : option Visibility :=
  if String.eqb s "public" then Some public
  else if String.eqb s "private" then Some private
  else None.

(** The fixed text between the values, up to the opening quote of the
    next string. *)
Definition open_rule : string :=
  "{" ++ quote "group" ++ ":{" ++ quote "type" ++ ":" ++ String dquote "".
Definition then_id : string :=
  "," ++ quote "id" ++ ":" ++ String dquote "".
Definition then_permission : string :=
  "}," ++ quote "permission" ++ ":" ++ String dquote "".
Definition open_policy : string :=
  "{" ++ quote "owner" ++ ":" ++ String dquote "".
Definition then_visibility : string :=
  "," ++ quote "visibility" ++ ":" ++ String dquote "".
Definition then_aclRules : string :=
  "," ++ quote "aclRules" ++ ":[".

Definition printRule (r : ObjectAclRule) : string :=
  open_rule ++ quoteBody (type (group r)) ++ String dquote ""
  ++ then_id ++ quoteBody (id (group r)) ++ String dquote ""
  ++ then_permission ++ printPermission (permission r) ++ String dquote ""
  ++ "}".

Fixpoint printRules (rs : list ObjectAclRule) : string :=
  match rs with
  | [] => "]"
  | [r] => printRule r ++ "]"
  | r :: rest => printRule r ++ "," ++ printRules rest
  end.

(** What [printRules] prints after its first rule. *)
Fixpoint printMoreRules (rs : list ObjectAclRule) : string :=
  match rs with
  | [] => "]"
  | r :: rest => "," ++ printRule r ++ printMoreRules rest
  end.

Definition stringify (p : ObjectAclPolicy) : string :=
  open_policy ++ quoteBody (owner p) ++ String dquote ""
  ++ then_visibility ++ printVisibility (visibility p) ++ String dquote ""
  ++ match aclRules p with
     | None => ""
     | Some rs => then_aclRules ++ printRules rs
     end
  ++ "}".

Definition parseRule (s : string) : option (ObjectAclRule * string) :=
  s ← expect open_rule s;
  '(t, s) ← unquoteBody s;
  s ← expect then_id s;
  '(i, s) ← unquoteBody s;
  s ← expect then_permission s;
  '(p, s) ← unquoteBody s;
  p ← parsePermission p;
  s ← expect "}" s;
  Some ({| group := {| type := t; id := i |}; permission := p |}, s).

(** After a rule: the end of the array, or a comma and the next rule. *)
Fixpoint parseMoreRules (fuel : nat) (s : string)
  : option (list ObjectAclRule * string) :=
  match fuel with
  | O => None
  | S fuel' =>
      match expect "]" s with
      | Some s' => Some ([], s')
      | None =>
          s ← expect "," s;
          '(r, s) ← parseRule s;
          '(rs, s) ← parseMoreRules fuel' s;
          Some (r :: rs, s)
      end
  end.

Definition parseRules (s : string) : option (list ObjectAclRule * string) :=
  match expect "]" s with
  | Some s' => Some ([], s')
  | None =>
      '(r, s) ← parseRule s;
      '(rs, s) ← parseMoreRules (String.length s) s;
      Some (r :: rs, s)
  end.

Definition parsePolicy (s : string) : option ObjectAclPolicy :=
  s ← expect open_policy s;
  '(o, s) ← unquoteBody s;
  s ← expect then_visibility s;
  '(v, s) ← unquoteBody s;
  v ← parseVisibility v;
  match expect then_aclRules s with
  | Some s =>
      '(rs, s) ← parseRules s;
      if String.eqb s "}" then
        Some {| owner := o; visibility := v; aclRules := Some rs |}
      else None
  | None =>
      if String.eqb s "}" then
        Some {| owner := o; visibility := v; aclRules := None |}
      else None
  end.

Definition parse (s : string) : Result ObjectAclPolicy :=
  match parsePolicy s with
  | Some p => Ok p
  | None => Throw (SyntaxError "Unexpected token in JSON")
  end.

#[export] Instance codec : JSON :=
  {| JSON_stringify := stringify; JSON_parse := parse |}.

End PolicyJson.

(** ** The specification's reading of path resolution and of permissions

    These two definitions follow the specification's wording rather than the
    source; the theorems compare them with [parseObjectPath] and
    [isPermissionAllowed]. *)

(** The non-empty segments of a path: its maximal runs free of the
    separator. *)
Fixpoint segmentsOf (path : string) : list string :=
  match path with
  | EmptyString => []
  | String c rest =>
      if Ascii.eqb c "/" then segmentsOf rest
      else if String.eqb rest "" || startsWith rest "/" then
        String c "" :: segmentsOf rest
      else
        match segmentsOf rest with
        | [] => [String c ""]
        | segment :: segments => String c segment :: segments
        end
  end.

Inductive Resolution : Type :=
| InvalidPathError
| ObjectReference (bucket key : string).

(** [resolve]: rule 1 (empty path), rule 2 (no leading separator), rule 3
    (zero, one, two or more segments). *)
Definition resolve (defaultBucket path : string) : Resolution :=
  if String.eqb path "" then InvalidPathError
  else if negb (startsWith path "/") then ObjectReference defaultBucket path
  else
    match segmentsOf path with
    | [] => InvalidPathError
    | [segment] => ObjectReference defaultBucket segment
    | first :: remaining => ObjectReference first (join "/" remaining)
    end.

(** How the source reports a [Resolution]. *)
Definition reported (r : Resolution) : Result ParsedPath :=
  match r with
  | InvalidPathError => Throw (Error invalid_path_message)
  | ObjectReference b k => Ok {| bucketName := b; objectName := k |}
  end.

(** The order of the permission lattice: READ below WRITE. *)
Definition rank (p : ObjectPermission) : nat :=
  match p with READ => 0 | WRITE => 1 end.

(** ** Two notions the statements below use *)

(** An object after a policy write: [o] with the policy text under the
    reserved key, everything else as it was. *)
Definition withPolicyText (text : string) (o : StoredObject) : StoredObject :=
  {| Body := Body o;
     ContentType := ContentType o;
     CacheControl := CacheControl o;
     ContentEncoding := ContentEncoding o;
     ContentDisposition := ContentDisposition o;
     Metadata := <[ACL_POLICY_METADATA_KEY := text]> (Metadata o);
     ETag := ETag o |}.

(** The path [getObjectEntityFile] hands to [parseObjectPath]: the private
    directory, closed by a separator, followed by the entity id. *)
Definition objectEntityPath (privateObjectDir objectPath : string) : string :=
  (if negb (endsWith privateObjectDir "/") then privateObjectDir ++ "/"
   else privateObjectDir)
  ++ join "/" (skipn 1 (split "/" (slice 1 objectPath))).

(** A string free of the separator. *)
Definition separatorFree (sep : ascii) (s : string) : Prop :=
  Forall (fun c => c <> sep) (list_ascii_of_string s).

(** The next [n] requests are answered: none of them meets a pending
    fault.  What is pending for the requests after them is left open. *)
Definition answersNext (n : nat) (b : Backend) : Prop :=
  Forall (fun pending => pending = None) (take n (faults b)).

(** The backend once [n] requests have been sent and none of them wrote. *)
Definition afterRequests (n : nat) (b : Backend) : Backend :=
  {| objects := objects b; faults := drop n (faults b) |}.

(** ** Sample configuration and backends *)
Module Sample.

Definition env : Env :=
  {| R2_BUCKET_NAME := "media"; PRIVATE_OBJECT_DIR := "/media/private" |}.

Definition file : S3Object :=
  {| bucket := "media"; key := "private/uploads/report" |}.

Definition ownedBy (user : string) (v : Visibility)
    (rules : option (list ObjectAclRule)) : ObjectAclPolicy :=
  {| owner := user; visibility := v; aclRules := rules |}.

Definition readers : ObjectAclRule :=
  {| group := {| type := "team"; id := "g1" |}; permission := READ |}.

Definition stored (meta : gmap string string) : StoredObject :=
  {| Body := "%PDF";
     ContentType := Some "application/pdf";
     CacheControl := Some "max-age=60";
     ContentEncoding := None;
     ContentDisposition := Some "inline";
     Metadata := meta;
     ETag := Some "v1" |}.

(** A backend holding [file] with the given custom metadata. *)
Definition holding (meta : gmap string string) : Backend :=
  {| objects := {[ "media/private/uploads/report" := stored meta ]};
     faults := [] |}.

(** [file] carrying the policy [p], next to another custom key. *)
Definition withPolicy (p : ObjectAclPolicy) : Backend :=
  holding {[ ACL_POLICY_METADATA_KEY := PolicyJson.stringify p;
             "uploaded-by" := "u7" ]}.

(** [file] without a policy, and with a text that is not JSON. *)
Definition plain : Backend := holding {[ "uploaded-by" := "u7" ]}.

Definition garbled : Backend :=
  holding {[ ACL_POLICY_METADATA_KEY := "{owner:u1" ]}.

Definition empty : Backend := {| objects := ∅; faults := [] |}.

Definition privateOf_u1 : ObjectAclPolicy :=
  ownedBy "u1" private (Some [readers]).

Definition publicOf_u1 : ObjectAclPolicy := ownedBy "u1" public (Some []).

(** A policy whose owner is the empty string. *)
Definition ownerless : ObjectAclPolicy := ownedBy "" private (Some []).

(** What a client in an outage rejects with. *)
Definition serviceUnavailable : Thrown :=
  ServiceException "ServiceUnavailable" (Some 503%Z).

(** A presigner that only records what it was asked to sign. *)
Definition methodName (m : Method) : string :=
  match m with GET => "GET" | PUT => "PUT" | DELETE => "DELETE" | HEAD => "HEAD" end.

#[export] Instance presigner : Presigner :=
  {| getSignedUrl := fun command expiresIn =>
       if (expiresIn =? 0)%nat then Throw (Error "expiresIn must be positive")
       else Ok ("https://signed.example/" ++ command_Bucket command ++ "/"
                ++ command_Key command ++ "?X-Method="
                ++ methodName (command_class command)) |}.

(** The text from the first separator after the host on, for an [https]
    URL without query or fragment. *)
Fixpoint fromFirstSeparator (s : string) : string :=
  match s with
  | EmptyString => "/"
  | String c rest => if Ascii.eqb c "/" then s else fromFirstSeparator rest
  end.

#[export] Instance url : URL :=
  {| URL_pathname := fun text =>
       if startsWith text "https://" then Ok (fromFirstSeparator (slice 8 text))
       else Throw (ServiceException "TypeError" None) |}.

(** A speech service that has no stream for an empty text and otherwise
    delivers three bytes in two chunks. *)
#[export] Instance deepgram : Deepgram :=
  {| speak_request := fun text model =>
       if String.eqb text "" then NoStream
       else Stream [Chunk [Byte.x49; Byte.x44]; Chunk [Byte.x33]] |}.

(** A second object, and a backend holding both. *)
Definition banner : S3Object := {| bucket := "media"; key := "public/banner" |}.

Definition library : Backend :=
  {| objects := {[ "media/private/uploads/report" := stored {[ "uploaded-by" := "u7" ]};
                   "media/public/banner" := stored ∅ ]};
     faults := [] |}.

(** [library] behind a client whose third request meets an outage. *)
Definition libraryBeforeOutage : Backend :=
  {| objects := objects library;
     faults := [None; None; Some serviceUnavailable] |}.



End Sample.

(** * Properties *)

(** ** Strings *)

Lemma split_not_nil sep s : split sep s <> [].
Proof.
  destruct s as [|c s]; simpl; [discriminate|].
  destruct (Ascii.eqb c sep); [discriminate|].
  destruct (split sep s); discriminate.
Qed.

Lemma startsWith_slash s :
  startsWith s "/" = match s with
                     | String c _ => Ascii.eqb c "/"
                     | EmptyString => false
                     end.
Proof.
  destruct s as [|c s]; [reflexivity|].
  unfold startsWith.
  change (String.prefix "/" (String c s))
    with (if ascii_dec "/" c then String.prefix "" s else false).
  destruct (ascii_dec "/" c) as [<-|Hne].
  - destruct s; reflexivity.
  - symmetry. apply Ascii.eqb_neq. congruence.
Qed.

(** The first piece of a split is empty exactly when the string is empty or
    begins with the separator. *)
Lemma split_head_empty s :
  match split "/" s with
  | w :: _ => String.eqb w ""
  | [] => false
  end = (String.eqb s "" || startsWith s "/").
Proof.
  rewrite startsWith_slash.
  destruct s as [|c s]; [reflexivity|]. simpl.
  destruct (Ascii.eqb c "/"); [reflexivity|].
  destruct (split "/" s); reflexivity.
Qed.

Lemma segmentsOf_split path :
  segmentsOf path = List.filter nonEmpty (split "/" path).
Proof.
  induction path as [|c rest IH]; [reflexivity|]. simpl.
  destruct (Ascii.eqb c "/"); [exact IH|].
  pose proof (split_head_empty rest) as Hhead.
  pose proof (split_not_nil "/" rest) as Hnil.
  destruct (split "/" rest) as [|w ws]; [congruence|].
  rewrite <- Hhead. simpl in IH. simpl.
  unfold nonEmpty at 1 in IH.
  destruct (String.eqb_spec w "") as [->|Hw]; simpl in IH.
  - rewrite IH. reflexivity.
  - rewrite IH. reflexivity.
Qed.

(** ** Path resolution *)

Lemma getBucketName_configured env :
  R2_BUCKET_NAME env <> "" -> getBucketName env = Ok (R2_BUCKET_NAME env).
Proof.
  intros Hcfg. unfold getBucketName.
  destruct (String.eqb_spec (R2_BUCKET_NAME env) ""); [contradiction|reflexivity].
Qed.

(** C7 (as amended).  With a default bucket configured, [parseObjectPath]
    gives on every non-empty path what the specification's [resolve] gives:
    a path without leading separator is the key in the default bucket; with
    a leading separator, no segment is an error, one segment is the key in
    the default bucket, and two or more segments are the bucket followed by
    the key. *)
Theorem parseObjectPath_follows_resolve env path :
  R2_BUCKET_NAME env <> "" ->
  path <> "" ->
  parseObjectPath env path = reported (resolve (R2_BUCKET_NAME env) path).
Proof.
  intros Hcfg Hpath. unfold parseObjectPath, resolve.
  rewrite (getBucketName_configured env Hcfg).
  destruct (String.eqb_spec path ""); [contradiction|].
  destruct (startsWith path "/"); simpl; [|reflexivity].
  rewrite segmentsOf_split.
  destruct (List.filter nonEmpty (split "/" path)) as [|a [|b l]];
    reflexivity.
Qed.

Lemma parseObjectPath_follows_resolve_witness :
  parseObjectPath Sample.env "/b/k1/k2"
  = reported (ObjectReference "b" "k1/k2").
Proof.
  apply (parseObjectPath_follows_resolve Sample.env "/b/k1/k2"); discriminate.
Defined.

(** C7 (as stated) fails on the empty path: the specification's rule 1
    makes it an error, the source returns the default bucket with an empty
    key. *)
Lemma parseObjectPath_empty_path_is_accepted :
  resolve "media" "" = InvalidPathError
  /\ parseObjectPath Sample.env "" =
       Ok {| bucketName := "media"; objectName := "" |}
  /\ parseObjectPath Sample.env "" <> reported (resolve "media" "").
Proof.
  repeat split; try reflexivity. discriminate.
Qed.

(** The specification's examples. *)
Example parseObjectPath_foo :
  parseObjectPath Sample.env "foo"
  = Ok {| bucketName := "media"; objectName := "foo" |}.
Proof. reflexivity. Qed.

Example parseObjectPath_b_k1_k2 :
  parseObjectPath Sample.env "/b/k1/k2"
  = Ok {| bucketName := "b"; objectName := "k1/k2" |}.
Proof. reflexivity. Qed.

Example parseObjectPath_only_separators :
  parseObjectPath Sample.env "//" = Throw (Error invalid_path_message).
Proof. reflexivity. Qed.

(** ** Permissions *)

(** C3.  [isPermissionAllowed requested granted] holds exactly when
    [requested] is below [granted] in the order READ < WRITE: a WRITE grant
    satisfies READ and WRITE requests, a READ grant satisfies a READ request
    and never a WRITE request. *)
Theorem isPermissionAllowed_lattice :
  (forall requested granted,
     isPermissionAllowed requested granted = true
     <-> (rank requested <= rank granted)%nat)
  /\ isPermissionAllowed READ WRITE = true
  /\ isPermissionAllowed WRITE WRITE = true
  /\ isPermissionAllowed READ READ = true
  /\ isPermissionAllowed WRITE READ = false.
Proof.
  split; [|repeat split].
  intros [] []; simpl; split; intros Hle; try reflexivity; try lia.
  discriminate.
Qed.

(** ** The client and [S3ObjectWrapper] *)

Lemma bind_Ok {A B} (m : M A) (k : A -> M B) b a b' :
  m b = (Ok a, b') -> bind m k b = k a b'.
Proof. intros Hm. unfold bind. rewrite Hm. reflexivity. Qed.

Lemma bind_Throw {A B} (m : M A) (k : A -> M B) b e b' :
  m b = (Throw e, b') -> bind m k b = (Throw e, b').
Proof. intros Hm. unfold bind. rewrite Hm. reflexivity. Qed.

Lemma try_catch_Ok {A} (m : M A) h b a b' :
  m b = (Ok a, b') -> try_catch m h b = (Ok a, b').
Proof. intros Hm. unfold try_catch. rewrite Hm. reflexivity. Qed.

Lemma try_catch_Throw {A} (m : M A) h b e b' :
  m b = (Throw e, b') -> try_catch m h b = h e b'.
Proof. intros Hm. unfold try_catch. rewrite Hm. reflexivity. Qed.

(** A backend without pending faults answers. *)
Lemma request_answers {A} (answer : Backend -> Result A * Backend) b :
  faults b = [] -> request answer b = answer b.
Proof. intros Hq. unfold request. rewrite Hq. reflexivity. Qed.

(** Every request ends in one of two ways: a pending fault is thrown, or
    the backend answers, in both cases from the same objects. *)
Lemma request_cases {A} (answer : Backend -> Result A * Backend) b :
  (exists e rest, faults b = Some e :: rest
     /\ request answer b = (Throw e, {| objects := objects b; faults := rest |}))
  \/ (exists b0, objects b0 = objects b
        /\ (faults b = [] -> b0 = b)
        /\ request answer b = answer b0).
Proof.
  unfold request. destruct (faults b) as [|[e|] rest] eqn:Hf.
  - right. exists b. auto.
  - left. exists e, rest. auto.
  - right. eexists. split; [|split; [|reflexivity]]; [reflexivity|discriminate].
Qed.

Lemma send_HeadObjectCommand_answers Bucket Key b :
  faults b = [] ->
  send_HeadObjectCommand Bucket Key b =
    match objects b !! resourcePath Bucket Key with
    | None => (Throw notFound, b)
    | Some o => (Ok (headOf o), b)
    end.
Proof. intros Hq. unfold send_HeadObjectCommand. now rewrite request_answers. Qed.

(** A HEAD request never changes the objects, and fails on a missing one. *)
Lemma send_HeadObjectCommand_objects Bucket Key b :
  objects (snd (send_HeadObjectCommand Bucket Key b)) = objects b.
Proof.
  unfold send_HeadObjectCommand.
  destruct (request_cases
    (fun b => match objects b !! resourcePath Bucket Key with
              | None => (Throw notFound, b)
              | Some o => (Ok (headOf o), b)
              end) b) as [(e & rest & _ & ->)|(b0 & Hobj & _ & ->)].
  - reflexivity.
  - destruct (objects b0 !! resourcePath Bucket Key); exact Hobj.
Qed.

Lemma send_HeadObjectCommand_missing Bucket Key b :
  objects b !! resourcePath Bucket Key = None ->
  exists e, fst (send_HeadObjectCommand Bucket Key b) = Throw e.
Proof.
  intros Hmiss. unfold send_HeadObjectCommand.
  destruct (request_cases
    (fun b => match objects b !! resourcePath Bucket Key with
              | None => (Throw notFound, b)
              | Some o => (Ok (headOf o), b)
              end) b) as [(e & rest & _ & ->)|(b0 & Hobj & _ & ->)].
  - eauto.
  - rewrite Hobj, Hmiss. eauto.
Qed.

Lemma getMetadata_answers this b :
  faults b = [] ->
  getMetadata this b =
    match objects b !! resourcePath (bucket this) (key this) with
    | None => (Throw ObjectNotFoundError, b)
    | Some o => (Ok {| contentType := ContentType o;
                       size := Some (String.length (Body o));
                       metadata := Some (Metadata o) |}, b)
    end.
Proof.
  intros Hq. unfold getMetadata, try_catch, bind.
  rewrite (send_HeadObjectCommand_answers _ _ _ Hq).
  destruct (objects b !! resourcePath (bucket this) (key this)); reflexivity.
Qed.

Lemma getMetadata_objects this b :
  objects (snd (getMetadata this b)) = objects b.
Proof.
  unfold getMetadata, try_catch, bind.
  pose proof (send_HeadObjectCommand_objects (bucket this) (key this) b) as Hobj.
  destruct (send_HeadObjectCommand (bucket this) (key this) b) as [[r|e] b'];
    simpl in Hobj |- *; [exact Hobj|].
  unfold throw.
  destruct (_ || _); exact Hobj.
Qed.


(** ** The JSON codec reads back what it prints *)

Lemma append_String c (s t : string) : String c s ++ t = String c (s ++ t).
Proof. reflexivity. Qed.

Lemma append_Empty (t : string) : "" ++ t = t.
Proof. reflexivity. Qed.

Lemma append_assoc (s t u : string) : (s ++ t) ++ u = s ++ (t ++ u).
Proof.
  induction s as [|c s IH]; [reflexivity|].
  rewrite !append_String, IH. reflexivity.
Qed.

Lemma length_append (s t : string) :
  String.length (s ++ t) = (String.length s + String.length t)%nat.
Proof.
  induction s as [|c s IH]; [reflexivity|].
  rewrite append_String. cbn [String.length]. rewrite IH. reflexivity.
Qed.

Lemma prefix_append (lit s : string) : String.prefix lit (lit ++ s) = true.
Proof.
  induction lit as [|c lit IH].
  - destruct s; reflexivity.
  - rewrite append_String. cbn [String.prefix].
    destruct (ascii_dec c c); [exact IH|contradiction].
Qed.

Lemma slice_append (lit s : string) : slice (String.length lit) (lit ++ s) = s.
Proof. induction lit as [|c lit IH]; [reflexivity|exact IH]. Qed.

Lemma expect_append (lit s : string) : PolicyJson.expect lit (lit ++ s) = Some s.
Proof.
  unfold PolicyJson.expect. rewrite prefix_append, slice_append. reflexivity.
Qed.

Lemma expect_unit c (s : string) :
  PolicyJson.expect (String c "") (String c s) = Some s.
Proof. exact (expect_append (String c "") s). Qed.

(** One escaped unit in front of a string body is read back as that unit. *)
Lemma unquoteBody_quoteChar c (tail : string) :
  PolicyJson.unquoteBody (PolicyJson.quoteChar c ++ tail)
  = match PolicyJson.unquoteBody tail with
    | Some (t, r) => Some (String c t, r)
    | None => None
    end.
Proof.
  destruct c as [[] [] [] [] [] [] [] []]; reflexivity.
Qed.

Lemma unquoteBody_quoteBody (s tail : string) :
  PolicyJson.unquoteBody
    (PolicyJson.quoteBody s ++ String PolicyJson.dquote tail)
  = Some (s, tail).
Proof.
  induction s as [|c s IH]; [reflexivity|].
  cbn [PolicyJson.quoteBody].
  rewrite append_assoc, unquoteBody_quoteChar, IH. reflexivity.
Qed.

Lemma unquoteBody_printPermission p (tail : string) :
  PolicyJson.unquoteBody
    (PolicyJson.printPermission p ++ String PolicyJson.dquote tail)
  = Some (PolicyJson.printPermission p, tail).
Proof. destruct p; reflexivity. Qed.

Lemma unquoteBody_printVisibility v (tail : string) :
  PolicyJson.unquoteBody
    (PolicyJson.printVisibility v ++ String PolicyJson.dquote tail)
  = Some (PolicyJson.printVisibility v, tail).
Proof. destruct v; reflexivity. Qed.

Lemma parseRule_printRule r (tail : string) :
  PolicyJson.parseRule (PolicyJson.printRule r ++ tail) = Some (r, tail).
Proof.
  destruct r as [[t i] p].
  unfold PolicyJson.printRule, PolicyJson.parseRule.
  cbn [group type id permission].
  rewrite !append_assoc, !append_String, !append_Empty.
  rewrite expect_append. cbn [mbind option_bind].
  rewrite unquoteBody_quoteBody. cbn [mbind option_bind].
  rewrite expect_append. cbn [mbind option_bind].
  rewrite unquoteBody_quoteBody. cbn [mbind option_bind].
  rewrite expect_append. cbn [mbind option_bind].
  rewrite unquoteBody_printPermission. cbn [mbind option_bind].
  assert (PolicyJson.parsePermission (PolicyJson.printPermission p) = Some p)
    as -> by (destruct p; reflexivity).
  cbn [mbind option_bind]. rewrite expect_unit. reflexivity.
Qed.

Lemma printRules_cons r rest :
  PolicyJson.printRules (r :: rest)
  = PolicyJson.printRule r ++ PolicyJson.printMoreRules rest.
Proof.
  revert r. induction rest as [|r' rest IH]; intros r; [reflexivity|].
  change (PolicyJson.printRules (r :: r' :: rest))
    with (PolicyJson.printRule r ++ "," ++ PolicyJson.printRules (r' :: rest)).
  rewrite IH. reflexivity.
Qed.

Lemma printMoreRules_length rs :
  (length rs < String.length (PolicyJson.printMoreRules rs))%nat.
Proof.
  induction rs as [|r rest IH]; cbn [PolicyJson.printMoreRules length].
  - cbn. lia.
  - rewrite !length_append. cbn [String.length]. lia.
Qed.

Lemma expect_bracket_comma (s : string) :
  PolicyJson.expect "]" ("," ++ s) = None.
Proof. reflexivity. Qed.

Lemma expect_bracket_printRule r (s : string) :
  PolicyJson.expect "]" (PolicyJson.printRule r ++ s) = None.
Proof. reflexivity. Qed.

Lemma parseMoreRules_printMoreRules rs :
  forall fuel (tail : string),
    (length rs < fuel)%nat ->
    PolicyJson.parseMoreRules fuel (PolicyJson.printMoreRules rs ++ tail)
    = Some (rs, tail).
Proof.
  induction rs as [|r rest IH]; intros [|fuel] tail Hfuel;
    cbn [length] in Hfuel; try lia;
    cbn [PolicyJson.parseMoreRules PolicyJson.printMoreRules].
  - rewrite expect_append. reflexivity.
  - rewrite !append_assoc, expect_bracket_comma, expect_append.
    cbn [mbind option_bind].
    rewrite parseRule_printRule. cbn [mbind option_bind].
    rewrite IH by lia. reflexivity.
Qed.

Lemma parseRules_printRules rs (tail : string) :
  PolicyJson.parseRules (PolicyJson.printRules rs ++ tail) = Some (rs, tail).
Proof.
  unfold PolicyJson.parseRules. destruct rs as [|r rest].
  - cbn [PolicyJson.printRules]. rewrite expect_append. reflexivity.
  - rewrite printRules_cons, append_assoc, expect_bracket_printRule.
    rewrite parseRule_printRule. cbn [mbind option_bind].
    rewrite parseMoreRules_printMoreRules; [reflexivity|].
    rewrite length_append. pose proof (printMoreRules_length rest). lia.
Qed.

(** Every policy is read back from its text, and the text is not empty. *)
Lemma parse_stringify p : PolicyJson.parse (PolicyJson.stringify p) = Ok p.
Proof.
  destruct p as [o v rules].
  unfold PolicyJson.parse, PolicyJson.parsePolicy, PolicyJson.stringify.
  cbn [owner visibility aclRules].
  destruct rules as [rs|];
    rewrite ?append_assoc, ?append_String, ?append_Empty;
    rewrite expect_append; cbn [mbind option_bind];
    rewrite unquoteBody_quoteBody; cbn [mbind option_bind];
    rewrite expect_append; cbn [mbind option_bind];
    rewrite unquoteBody_printVisibility; cbn [mbind option_bind];
    assert (PolicyJson.parseVisibility (PolicyJson.printVisibility v) = Some v)
      as -> by (destruct v; reflexivity);
    cbn [mbind option_bind].
  - rewrite expect_append, parseRules_printRules. reflexivity.
  - reflexivity.
Qed.

Lemma stringify_not_empty p : PolicyJson.stringify p <> "".
Proof.
  assert (exists rest, PolicyJson.stringify p = String "{" rest) as [rest ->]
    by (eexists; reflexivity).
  discriminate.
Qed.

(** ** The policy store *)

Section PolicyStore.
Context `{JSON}.

(** The first step of [setObjectAclPolicy] swallows every failure. *)
Lemma read_current_metadata objectFile b :
  exists currentMetadata b1,
    try_catch
      (let* response := getMetadata objectFile in
       ret (default ∅ (metadata response)))
      (fun _ => ret ∅) b = (Ok currentMetadata, b1)
    /\ objects b1 = objects b.
Proof.
  pose proof (getMetadata_objects objectFile b) as Hobj.
  unfold try_catch, bind.
  destruct (getMetadata objectFile b) as [[response|e] b1]; simpl in Hobj;
    eexists _, b1; (split; [reflexivity|exact Hobj]).
Qed.

Lemma merged_metadata text (m : gmap string string) :
  <[ACL_POLICY_METADATA_KEY := text]> m ∪ m
  = <[ACL_POLICY_METADATA_KEY := text]> m.
Proof. rewrite <- insert_union_l. f_equal. apply (idemp_L (∪)). Qed.

(** On a backend that answers, a policy write to an existing object
    replaces it by [withPolicyText]. *)
Lemma setObjectAclPolicy_answers objectFile aclPolicy b o :
  faults b = [] ->
  objects b !! resourcePath (bucket objectFile) (key objectFile) = Some o ->
  setObjectAclPolicy objectFile aclPolicy b =
    (Ok tt,
     {| objects :=
          <[resourcePath (bucket objectFile) (key objectFile) :=
              withPolicyText (JSON_stringify aclPolicy) o]> (objects b);
        faults := faults b |}).
Proof.
  intros Hq Ho. unfold setObjectAclPolicy.
  unfold bind at 1. unfold try_catch at 1. unfold bind at 1.
  rewrite (getMetadata_answers _ _ Hq), Ho. simpl.
  unfold bind, try_catch.
  rewrite (send_HeadObjectCommand_answers _ _ _ Hq), Ho.
  unfold send_CopyObjectCommand. rewrite (request_answers _ _ Hq).
  cbn [copy_CopySource copy_Bucket copy_Key copy_Metadata copy_ContentType
       copy_CacheControl copy_ContentEncoding copy_ContentDisposition
       head_Metadata head_ContentType head_CacheControl
       head_ContentEncoding head_ContentDisposition headOf default].
  change (bucket objectFile ++ "/" ++ key objectFile)
    with (resourcePath (bucket objectFile) (key objectFile)).
  rewrite Ho. unfold withPolicyText. rewrite merged_metadata. reflexivity.
Qed.

Lemma getObjectAclPolicy_answers objectFile b o :
  faults b = [] ->
  objects b !! resourcePath (bucket objectFile) (key objectFile) = Some o ->
  getObjectAclPolicy objectFile b =
    (match Metadata o !! ACL_POLICY_METADATA_KEY with
     | None => Ok None
     | Some text =>
         if String.eqb text "" then Ok None
         else match JSON_parse text with
              | Ok parsed => Ok (Some parsed)
              | Throw _ => Ok None
              end
     end, b).
Proof.
  intros Hq Ho. unfold getObjectAclPolicy, try_catch, bind.
  rewrite (getMetadata_answers _ _ Hq), Ho. simpl.
  destruct (Metadata o !! ACL_POLICY_METADATA_KEY) as [text|]; [|reflexivity].
  destruct (String.eqb text ""); [reflexivity|].
  unfold lift. destruct (JSON_parse text); reflexivity.
Qed.

(** [getObjectAclPolicy] catches whatever its body throws. *)
Lemma getObjectAclPolicy_total objectFile b :
  exists r, fst (getObjectAclPolicy objectFile b) = Ok r.
Proof.
  unfold getObjectAclPolicy, try_catch.
  destruct (bind _ _ b) as [[r|e] b']; eauto.
Qed.

End PolicyStore.

Section PolicyStoreClaims.
Context `{JSON}.

(** C4 (as amended).  A policy write to a reference whose object is not in
    the backend fails and writes nothing: whatever the client does, the
    result is a throw and the objects are the same as before, so no object
    is created.  When the backend answers the requests, the thrown value is
    the plain [Error "Object not found: <bucket>/<key>"] of [objectAcl.ts],
    and the backend is unchanged. *)
Theorem setObjectAclPolicy_missing_object objectFile aclPolicy b :
  objects b !! resourcePath (bucket objectFile) (key objectFile) = None ->
  (exists e, fst (setObjectAclPolicy objectFile aclPolicy b) = Throw e)
  /\ objects (snd (setObjectAclPolicy objectFile aclPolicy b)) = objects b
  /\ (faults b = [] ->
      setObjectAclPolicy objectFile aclPolicy b =
        (Throw (Error ("Object not found: " ++ bucket objectFile
                         ++ "/" ++ key objectFile)), b)).
Proof.
  intros Hmiss.
  assert (Hgeneral :
    exists e b', setObjectAclPolicy objectFile aclPolicy b = (Throw e, b')
                 /\ objects b' = objects b).
  { unfold setObjectAclPolicy.
    destruct (read_current_metadata objectFile b)
      as (currentMetadata & b1 & Hfirst & Hobj1).
    rewrite (bind_Ok _ _ _ _ _ Hfirst).
    assert (Hmiss1 :
      objects b1 !! resourcePath (bucket objectFile) (key objectFile) = None)
      by (rewrite Hobj1; exact Hmiss).
    destruct (send_HeadObjectCommand_missing _ _ _ Hmiss1) as [e He].
    pose proof (send_HeadObjectCommand_objects
                  (bucket objectFile) (key objectFile) b1) as Hobj2.
    destruct (send_HeadObjectCommand (bucket objectFile) (key objectFile) b1)
      as [r b2] eqn:Hhead.
    simpl in He, Hobj2. subst r.
    unfold bind at 1. rewrite (try_catch_Throw _ _ _ _ _ Hhead).
    unfold throw. destruct (_ && _); eexists _, b2;
      (split; [reflexivity|congruence]). }
  destruct Hgeneral as (e & b' & Hset & Hobj).
  split; [|split].
  - rewrite Hset. eauto.
  - rewrite Hset. exact Hobj.
  - intros Hq. unfold setObjectAclPolicy.
    unfold bind at 1. unfold try_catch at 1. unfold bind at 1.
    rewrite (getMetadata_answers _ _ Hq), Hmiss. simpl.
    unfold bind, try_catch.
    rewrite (send_HeadObjectCommand_answers _ _ _ Hq), Hmiss.
    reflexivity.
Qed.

(** C5.  On a backend that answers, for an existing object and a policy
    the JSON codec prints to a non-empty text that parses back to it: the
    write succeeds, the following read returns the policy, every other
    custom metadata key (any key but the reserved one, which the write is
    there to set) keeps its value, and content-type, cache-control,
    content-encoding and content-disposition (and the bytes) are what they
    were. *)
Theorem setObjectAclPolicy_then_getObjectAclPolicy objectFile aclPolicy b o :
  faults b = [] ->
  objects b !! resourcePath (bucket objectFile) (key objectFile) = Some o ->
  JSON_parse (JSON_stringify aclPolicy) = Ok aclPolicy ->
  JSON_stringify aclPolicy <> "" ->
  exists b' o',
    setObjectAclPolicy objectFile aclPolicy b = (Ok tt, b')
    /\ getObjectAclPolicy objectFile b' = (Ok (Some aclPolicy), b')
    /\ objects b' !! resourcePath (bucket objectFile) (key objectFile)
       = Some o'
    /\ (forall k v, k <> ACL_POLICY_METADATA_KEY ->
          Metadata o !! k = Some v -> Metadata o' !! k = Some v)
    /\ ContentType o' = ContentType o
    /\ CacheControl o' = CacheControl o
    /\ ContentEncoding o' = ContentEncoding o
    /\ ContentDisposition o' = ContentDisposition o
    /\ Body o' = Body o.
Proof.
  intros Hq Ho Hround Hne.
  pose (b' :=
    {| objects :=
         <[resourcePath (bucket objectFile) (key objectFile) :=
             withPolicyText (JSON_stringify aclPolicy) o]> (objects b);
       faults := faults b |}).
  exists b', (withPolicyText (JSON_stringify aclPolicy) o).
  split; [exact (setObjectAclPolicy_answers _ _ _ _ Hq Ho)|].
  assert (Hq' : faults b' = []) by exact Hq.
  assert (Hstored :
    objects b' !! resourcePath (bucket objectFile) (key objectFile)
    = Some (withPolicyText (JSON_stringify aclPolicy) o))
    by apply lookup_insert_eq.
  split; [|split; [exact Hstored|]].
  - rewrite (getObjectAclPolicy_answers _ _ _ Hq' Hstored).
    cbn [withPolicyText Metadata]. rewrite lookup_insert_eq.
    destruct (String.eqb_spec (JSON_stringify aclPolicy) "");
      [contradiction|].
    rewrite Hround. reflexivity.
  - repeat split; try reflexivity.
    intros k v Hk Hv. cbn [withPolicyText Metadata].
    rewrite lookup_insert_ne by congruence. exact Hv.
Qed.

(** C6.  On a backend that answers, for an object whose custom metadata
    lacks the reserved key, or holds under it a text that [JSON.parse]
    rejects, [getObjectAclPolicy] returns null; and on no backend and no
    reference does it throw. *)
Theorem getObjectAclPolicy_null_not_error objectFile b o :
  faults b = [] ->
  objects b !! resourcePath (bucket objectFile) (key objectFile) = Some o ->
  (Metadata o !! ACL_POLICY_METADATA_KEY = None
   \/ exists text e, Metadata o !! ACL_POLICY_METADATA_KEY = Some text
                     /\ JSON_parse text = Throw e) ->
  getObjectAclPolicy objectFile b = (Ok None, b)
  /\ (forall anyFile anyBackend,
        exists r, fst (getObjectAclPolicy anyFile anyBackend) = Ok r).
Proof.
  intros Hq Ho Hfield. split; [|apply getObjectAclPolicy_total].
  rewrite (getObjectAclPolicy_answers _ _ _ Hq Ho).
  destruct Hfield as [->|(text & e & -> & ->)]; [reflexivity|].
  destruct (String.eqb text ""); reflexivity.
Qed.

End PolicyStoreClaims.

(** *** The policy store on the sample backends *)

Lemma setObjectAclPolicy_missing_object_witness :
  objects Sample.empty
    !! resourcePath (bucket Sample.file) (key Sample.file) = None
  /\ @setObjectAclPolicy PolicyJson.codec Sample.file Sample.privateOf_u1
       Sample.empty
     = (Throw (Error "Object not found: media/private/uploads/report"),
        Sample.empty).
Proof.
  assert (Hmiss : objects Sample.empty
            !! resourcePath (bucket Sample.file) (key Sample.file) = None)
    by reflexivity.
  split; [exact Hmiss|].
  exact (proj2 (proj2 (@setObjectAclPolicy_missing_object PolicyJson.codec
                         Sample.file Sample.privateOf_u1 Sample.empty Hmiss))
           eq_refl).
Defined.

(** C4 (as stated) fails in the error it names: for a missing object the
    policy write throws a plain [Error], which is no [ObjectNotFoundError],
    the error that [getMetadata] gives for the same missing object. *)
Lemma setObjectAclPolicy_missing_object_plain_error :
  objects Sample.empty
    !! resourcePath (bucket Sample.file) (key Sample.file) = None
  /\ (exists e,
        fst (@setObjectAclPolicy PolicyJson.codec Sample.file
               Sample.privateOf_u1 Sample.empty) = Throw e
        /\ instanceof_ObjectNotFoundError e = false)
  /\ fst (@setObjectAclPolicy PolicyJson.codec Sample.file
            Sample.privateOf_u1 Sample.empty) <> Throw ObjectNotFoundError
  /\ fst (getMetadata Sample.file Sample.empty) = Throw ObjectNotFoundError.
Proof.
  split; [reflexivity|]. split; [|split].
  - exists (Error "Object not found: media/private/uploads/report").
    split; reflexivity.
  - discriminate.
  - reflexivity.
Qed.

Lemma setObjectAclPolicy_then_getObjectAclPolicy_witness :
  exists b' o',
    @setObjectAclPolicy PolicyJson.codec Sample.file Sample.privateOf_u1
      Sample.plain = (Ok tt, b')
    /\ @getObjectAclPolicy PolicyJson.codec Sample.file b'
       = (Ok (Some Sample.privateOf_u1), b')
    /\ objects b' !! resourcePath (bucket Sample.file) (key Sample.file)
       = Some o'
    /\ (forall k v, k <> ACL_POLICY_METADATA_KEY ->
          Metadata (Sample.stored {[ "uploaded-by" := "u7" ]}) !! k = Some v ->
          Metadata o' !! k = Some v)
    /\ ContentType o' = Some "application/pdf"
    /\ CacheControl o' = Some "max-age=60"
    /\ ContentEncoding o' = None
    /\ ContentDisposition o' = Some "inline"
    /\ Body o' = "%PDF".
Proof.
  apply (@setObjectAclPolicy_then_getObjectAclPolicy PolicyJson.codec
           Sample.file Sample.privateOf_u1 Sample.plain
           (Sample.stored {[ "uploaded-by" := "u7" ]})).
  - reflexivity.
  - vm_compute. reflexivity.
  - vm_compute. reflexivity.
  - vm_compute. discriminate.
Defined.

(** The reserved key is the one key whose value a write changes: on an
    object that carried a policy it held the text of the old policy and
    holds the text of the new one afterwards. *)
Example setObjectAclPolicy_replaces_reserved_key :
  Metadata (Sample.stored
              {[ ACL_POLICY_METADATA_KEY :=
                   PolicyJson.stringify Sample.privateOf_u1;
                 "uploaded-by" := "u7" ]})
    !! ACL_POLICY_METADATA_KEY
  = Some (PolicyJson.stringify Sample.privateOf_u1)
  /\ (objects
        (snd (@setObjectAclPolicy PolicyJson.codec Sample.file
                Sample.publicOf_u1 (Sample.withPolicy Sample.privateOf_u1)))
        !! resourcePath (bucket Sample.file) (key Sample.file)
      ≫= fun o => Metadata o !! ACL_POLICY_METADATA_KEY)
     = Some (PolicyJson.stringify Sample.publicOf_u1)
  /\ PolicyJson.stringify Sample.privateOf_u1
     <> PolicyJson.stringify Sample.publicOf_u1.
Proof.
  split; [|split].
  - vm_compute. reflexivity.
  - vm_compute. reflexivity.
  - vm_compute. discriminate.
Qed.

Lemma getObjectAclPolicy_null_not_error_witness :
  @getObjectAclPolicy PolicyJson.codec Sample.file Sample.garbled
  = (Ok None, Sample.garbled)
  /\ @getObjectAclPolicy PolicyJson.codec Sample.file Sample.plain
     = (Ok None, Sample.plain).
Proof.
  split.
  - apply (@getObjectAclPolicy_null_not_error PolicyJson.codec Sample.file
             Sample.garbled
             (Sample.stored {[ ACL_POLICY_METADATA_KEY := "{owner:u1" ]}));
      [reflexivity | vm_compute; reflexivity |].
    right. exists "{owner:u1", (SyntaxError "Unexpected token in JSON").
    split; vm_compute; reflexivity.
  - apply (@getObjectAclPolicy_null_not_error PolicyJson.codec Sample.file
             Sample.plain (Sample.stored {[ "uploaded-by" := "u7" ]}));
      [reflexivity | vm_compute; reflexivity |].
    left. vm_compute. reflexivity.
Defined.

(** ** Entity resolution *)

Lemma startsWith_append s p :
  startsWith s p = true -> exists rest, s = p ++ rest.
Proof.
  unfold startsWith. revert s.
  induction p as [|c p IH]; intros s Hprefix.
  - exists s. reflexivity.
  - destruct s as [|d s]; [discriminate Hprefix|].
    cbn [String.prefix] in Hprefix.
    destruct (ascii_dec c d) as [<-|]; [|discriminate Hprefix].
    destruct (IH s Hprefix) as [rest ->]. exists rest. reflexivity.
Qed.

(** A logical path that passes the prefix test has at least two parts. *)
Lemma objects_prefix_two_parts objectPath :
  startsWith objectPath "/objects/" = true ->
  (length (split "/" (slice 1 objectPath)) <? 2)%nat = false.
Proof.
  intros Hprefix.
  destruct (startsWith_append _ _ Hprefix) as [rest ->].
  pose proof (split_not_nil "/" rest) as Hnil.
  cbv beta iota delta [String.append]. cbn [slice split Ascii.eqb Bool.eqb].
  destruct (split "/" rest); [contradiction|reflexivity].
Qed.

(** A path with fewer than two parts after its first unit does not start
    with the prefix: the second test of [getObjectEntityFile] rejects no
    path that the first one lets through. *)
Lemma getObjectEntityFile_few_parts objectPath :
  (length (split "/" (slice 1 objectPath)) < 2)%nat ->
  startsWith objectPath "/objects/" = false.
Proof.
  intros Hfew. destruct (startsWith objectPath "/objects/") eqn:Hprefix;
    [|reflexivity].
  pose proof (objects_prefix_two_parts _ Hprefix) as Htwo.
  apply Nat.ltb_ge in Htwo. lia.
Qed.




(** The object that is there is found. *)
Example getObjectEntityFile_found :
  getObjectEntityFile Sample.env "/objects/uploads/report" Sample.plain
  = (Ok Sample.file, Sample.plain).
Proof. vm_compute. reflexivity. Qed.

(** ** Access evaluation *)

Section AccessEvaluation.
Context `{JSON}.

(** The loop stops at its first rule: no group type has a membership
    check, so [createObjectAccessGroup] throws. *)
Lemma aclRules_loop_first_rule userId requestedPermission rule rest b :
  aclRules_loop userId requestedPermission (rule :: rest) b
  = (Throw (Error ("Unknown access group type: " ++ type (group rule))), b).
Proof. reflexivity. Qed.

(** C1.  When the stored policy is public, a READ request is granted to
    every caller, the absent one included; a WRITE request of an absent
    caller is denied, whatever the rules and so also when there are none. *)
Theorem canAccessObject_public objectFile aclPolicy b b' :
  getObjectAclPolicy objectFile b = (Ok (Some aclPolicy), b') ->
  visibility aclPolicy = public ->
  (forall userId, canAccessObject userId objectFile READ b = (Ok true, b'))
  /\ canAccessObject None objectFile WRITE b = (Ok false, b').
Proof.
  intros Hpolicy Hpublic. unfold canAccessObject.
  split; [intros userId|];
    rewrite (bind_Ok _ _ _ _ _ Hpolicy), Hpublic; reflexivity.
Qed.

(** C2 (as amended).  A caller whose non-empty userId is the owner of the
    stored policy is granted READ and WRITE, whatever the visibility and
    the rules. *)
Theorem canAccessObject_owner objectFile aclPolicy b b' userId :
  getObjectAclPolicy objectFile b = (Ok (Some aclPolicy), b') ->
  userId <> "" ->
  owner aclPolicy = userId ->
  forall requestedPermission,
    canAccessObject (Some userId) objectFile requestedPermission b
    = (Ok true, b').
Proof.
  intros Hpolicy Hpresent Howner requestedPermission.
  unfold canAccessObject. rewrite (bind_Ok _ _ _ _ _ Hpolicy).
  destruct (_ && _); [reflexivity|].
  destruct (String.eqb_spec userId ""); [contradiction|].
  rewrite Howner, String.eqb_refl. reflexivity.
Qed.

(** C9.  When the evaluation reaches the rules (the request is not a
    READ of a public object, the caller is present and is not the owner)
    and there is a first rule, the result is the thrown
    [Error "Unknown access group type: <type>"] of that rule, not a
    denial. *)
Theorem canAccessObject_unknown_group_type
    objectFile aclPolicy b b' userId requestedPermission rule rest :
  getObjectAclPolicy objectFile b = (Ok (Some aclPolicy), b') ->
  visibility aclPolicy = private \/ requestedPermission = WRITE ->
  userId <> "" ->
  owner aclPolicy <> userId ->
  aclRules aclPolicy = Some (rule :: rest) ->
  canAccessObject (Some userId) objectFile requestedPermission b
  = (Throw (Error ("Unknown access group type: " ++ type (group rule))), b').
Proof.
  intros Hpolicy Hgate Hpresent Hother Hrules.
  unfold canAccessObject. rewrite (bind_Ok _ _ _ _ _ Hpolicy).
  assert (bool_decide (visibility aclPolicy = public)
          && bool_decide (requestedPermission = READ) = false) as ->.
  { destruct Hgate as [-> | ->]; [reflexivity|].
    apply andb_false_r. }
  destruct (String.eqb_spec userId ""); [contradiction|].
  destruct (String.eqb_spec (owner aclPolicy) userId); [contradiction|].
  rewrite Hrules. apply aclRules_loop_first_rule.
Qed.

(** C10.  When [getObjectAclPolicy] returns null for the object,
    [canAccessObject] returns false for every caller, present or absent,
    and every requested permission. *)
Theorem canAccessObject_no_policy objectFile b b' :
  getObjectAclPolicy objectFile b = (Ok None, b') ->
  forall userId requestedPermission,
    canAccessObject userId objectFile requestedPermission b = (Ok false, b').
Proof.
  intros Hnone userId requestedPermission. unfold canAccessObject.
  rewrite (bind_Ok _ _ _ _ _ Hnone). reflexivity.
Qed.

End AccessEvaluation.

(** *** Access evaluation on the sample backends *)

(** Every policy can be the stored one: the sample backend that carries
    its text returns it. *)
Lemma getObjectAclPolicy_withPolicy p :
  @getObjectAclPolicy PolicyJson.codec Sample.file (Sample.withPolicy p)
  = (Ok (Some p), Sample.withPolicy p).
Proof.
  rewrite (@getObjectAclPolicy_answers PolicyJson.codec Sample.file
             (Sample.withPolicy p)
             (Sample.stored {[ ACL_POLICY_METADATA_KEY := PolicyJson.stringify p;
                               "uploaded-by" := "u7" ]}));
    [|reflexivity|apply lookup_insert_eq].
  cbn [Sample.stored Metadata]. rewrite lookup_insert_eq.
  destruct (String.eqb_spec (PolicyJson.stringify p) "") as [Hempty|_].
  - destruct (stringify_not_empty p Hempty).
  - cbn [JSON_parse PolicyJson.codec]. rewrite parse_stringify. reflexivity.
Qed.

Lemma canAccessObject_public_witness :
  @canAccessObject PolicyJson.codec None Sample.file READ
    (Sample.withPolicy Sample.publicOf_u1)
  = (Ok true, Sample.withPolicy Sample.publicOf_u1)
  /\ @canAccessObject PolicyJson.codec None Sample.file WRITE
       (Sample.withPolicy Sample.publicOf_u1)
     = (Ok false, Sample.withPolicy Sample.publicOf_u1).
Proof.
  assert (Hpolicy :
    @getObjectAclPolicy PolicyJson.codec Sample.file
      (Sample.withPolicy Sample.publicOf_u1)
    = (Ok (Some Sample.publicOf_u1), Sample.withPolicy Sample.publicOf_u1))
    by (vm_compute; reflexivity).
  destruct (@canAccessObject_public PolicyJson.codec Sample.file
              Sample.publicOf_u1 _ _ Hpolicy eq_refl) as [Hread Hwrite].
  split; [apply Hread|exact Hwrite].
Defined.

Lemma canAccessObject_owner_witness :
  @canAccessObject PolicyJson.codec (Some "u1") Sample.file WRITE
    (Sample.withPolicy Sample.privateOf_u1)
  = (Ok true, Sample.withPolicy Sample.privateOf_u1).
Proof.
  assert (Hpolicy :
    @getObjectAclPolicy PolicyJson.codec Sample.file
      (Sample.withPolicy Sample.privateOf_u1)
    = (Ok (Some Sample.privateOf_u1), Sample.withPolicy Sample.privateOf_u1))
    by (vm_compute; reflexivity).
  apply (@canAccessObject_owner PolicyJson.codec Sample.file
           Sample.privateOf_u1 _ _ "u1" Hpolicy);
    [discriminate | reflexivity].
Defined.

(** C2 (as stated) fails when the shared identity is the empty string: the
    source takes an empty userId for an absent caller and denies before it
    compares with the owner. *)
Lemma canAccessObject_empty_owner_denied :
  @getObjectAclPolicy PolicyJson.codec Sample.file
    (Sample.withPolicy Sample.ownerless)
  = (Ok (Some Sample.ownerless), Sample.withPolicy Sample.ownerless)
  /\ owner Sample.ownerless = ""
  /\ @canAccessObject PolicyJson.codec (Some "") Sample.file WRITE
       (Sample.withPolicy Sample.ownerless)
     = (Ok false, Sample.withPolicy Sample.ownerless).
Proof. repeat split; vm_compute; reflexivity. Qed.

Lemma canAccessObject_unknown_group_type_witness :
  @canAccessObject PolicyJson.codec (Some "u2") Sample.file READ
    (Sample.withPolicy Sample.privateOf_u1)
  = (Throw (Error "Unknown access group type: team"),
     Sample.withPolicy Sample.privateOf_u1).
Proof.
  assert (Hpolicy :
    @getObjectAclPolicy PolicyJson.codec Sample.file
      (Sample.withPolicy Sample.privateOf_u1)
    = (Ok (Some Sample.privateOf_u1), Sample.withPolicy Sample.privateOf_u1))
    by (vm_compute; reflexivity).
  apply (@canAccessObject_unknown_group_type PolicyJson.codec Sample.file
           Sample.privateOf_u1 _ _ "u2" READ Sample.readers [] Hpolicy);
    [left; reflexivity | discriminate | discriminate | reflexivity].
Defined.

Lemma canAccessObject_no_policy_witness :
  @canAccessObject PolicyJson.codec (Some "u1") Sample.file READ Sample.plain
  = (Ok false, Sample.plain)
  /\ @canAccessObject PolicyJson.codec None Sample.file WRITE Sample.garbled
     = (Ok false, Sample.garbled).
Proof.
  split.
  - apply (@canAccessObject_no_policy PolicyJson.codec Sample.file
             Sample.plain Sample.plain).
    vm_compute. reflexivity.
  - apply (@canAccessObject_no_policy PolicyJson.codec Sample.file
             Sample.garbled Sample.garbled).
    vm_compute. reflexivity.
Defined.

(** *** A client that fails *)

(** An outage during the existence check is reported as a missing object. *)
Example getObjectEntityFile_outage :
  fst (getObjectEntityFile Sample.env "/objects/uploads/report"
         {| objects := objects Sample.plain;
            faults := [Some Sample.serviceUnavailable] |})
  = Throw ObjectNotFoundError.
Proof. vm_compute. reflexivity. Qed.

(** An outage during the policy read is taken for a missing policy. *)
Example canAccessObject_outage :
  fst (@canAccessObject PolicyJson.codec (Some "u1") Sample.file READ
         {| objects := objects (Sample.withPolicy Sample.privateOf_u1);
            faults := [Some Sample.serviceUnavailable] |})
  = Ok false.
Proof. vm_compute. reflexivity. Qed.

(** The second HEAD of a policy write passes an outage on unchanged. *)
Example setObjectAclPolicy_outage :
  fst (@setObjectAclPolicy PolicyJson.codec Sample.file Sample.publicOf_u1
         {| objects := objects Sample.plain;
            faults := [None; Some Sample.serviceUnavailable] |})
  = Throw Sample.serviceUnavailable.
Proof. vm_compute. reflexivity. Qed.

(** * Further properties *)

(** ** Splitting and joining *)

Lemma split_append sep (a b : string) :
  split sep (a ++ String sep b) = (split sep a ++ split sep b)%list.
Proof.
  induction a as [|c a IH].
  - rewrite append_Empty. cbn [split]. rewrite Ascii.eqb_refl. reflexivity.
  - rewrite append_String. cbn [split]. rewrite IH.
    destruct (Ascii.eqb c sep); [reflexivity|].
    pose proof (split_not_nil sep a) as Hnil.
    destruct (split sep a); [contradiction|reflexivity].
Qed.

(** Joining the pieces of a split gives the string back. *)
Lemma join_split sep (s : string) :
  join (String sep "") (split sep s) = s.
Proof.
  unfold join. induction s as [|c s IH]; [reflexivity|].
  cbn [split]. pose proof (split_not_nil sep s) as Hnil.
  destruct (Ascii.eqb_spec c sep) as [->|Hc].
  - destruct (split sep s) as [|w ws]; [contradiction|].
    cbn [String.concat]. rewrite append_Empty, append_String, append_Empty.
    f_equal. exact IH.
  - destruct (split sep s) as [|w ws]; [contradiction|].
    destruct ws as [|w' ws].
    + cbn [String.concat] in IH |- *. rewrite IH. reflexivity.
    + cbn [String.concat] in IH |- *. rewrite append_String, IH. reflexivity.
Qed.

Lemma split_separatorFree sep s :
  separatorFree sep s -> split sep s = [s].
Proof.
  unfold separatorFree. induction s as [|c s IH]; intros Hfree;
    [reflexivity|].
  cbn [list_ascii_of_string] in Hfree. inversion Hfree as [|? ? Hc Hrest]; subst.
  cbn [split]. destruct (Ascii.eqb_spec c sep); [contradiction|].
  rewrite (IH Hrest). reflexivity.
Qed.

Lemma split_pieces_separatorFree sep s :
  Forall (separatorFree sep) (split sep s).
Proof.
  induction s as [|c s IH]; cbn [split].
  - repeat constructor.
  - destruct (Ascii.eqb_spec c sep) as [->|Hc].
    + constructor; [constructor|exact IH].
    + destruct (split sep s) as [|w ws]; [repeat constructor; exact Hc|].
      inversion IH as [|? ? Hw Hws]; subst.
      constructor; [|exact Hws]. constructor; assumption.
Qed.

(** Splitting a join of separator-free pieces gives the pieces back. *)
Lemma split_join sep (pieces : list string) :
  pieces <> [] ->
  Forall (separatorFree sep) pieces ->
  split sep (join (String sep "") pieces) = pieces.
Proof.
  unfold join. induction pieces as [|x rest IH]; intros Hnil Hfree;
    [contradiction|].
  inversion Hfree as [|? ? Hx Hrest]; subst.
  destruct rest as [|y rest].
  - cbn [String.concat]. apply split_separatorFree, Hx.
  - change (String.concat (String sep "") (x :: y :: rest))
      with (x ++ String sep "" ++ String.concat (String sep "") (y :: rest)).
    rewrite append_String, append_Empty, split_append.
    rewrite (split_separatorFree _ _ Hx), IH by (discriminate || assumption).
    reflexivity.
Qed.

Lemma filter_nonEmpty_id (pieces : list string) :
  Forall (fun p => p <> "") pieces -> List.filter nonEmpty pieces = pieces.
Proof.
  induction 1 as [|p pieces Hp _ IH]; [reflexivity|].
  cbn [List.filter]. unfold nonEmpty at 1.
  destruct (String.eqb_spec p ""); [contradiction|]. cbn [negb].
  rewrite IH. reflexivity.
Qed.

Lemma filter_nonEmpty_spec (pieces : list string) :
  Forall (fun p => p <> "") (List.filter nonEmpty pieces).
Proof.
  induction pieces as [|p pieces IH]; [constructor|].
  cbn [List.filter]. unfold nonEmpty at 1.
  destruct (String.eqb_spec p ""); cbn [negb]; [exact IH|].
  constructor; assumption.
Qed.

Lemma filter_separatorFree sep (pieces : list string) :
  Forall (separatorFree sep) pieces ->
  Forall (separatorFree sep) (List.filter nonEmpty pieces).
Proof.
  induction 1 as [|p pieces Hp _ IH]; [constructor|].
  cbn [List.filter]. destruct (nonEmpty p); [constructor; assumption|exact IH].
Qed.

(** A string that ends with a suffix is some string followed by it. *)
Lemma slice_is_suffix n (s p : string) :
  (n <= String.length s)%nat -> slice n s = p -> exists pre, s = pre ++ p.
Proof.
  revert s. induction n as [|n IH]; intros s Hlen Hslice.
  - exists "". exact Hslice.
  - destruct s as [|c s]; [cbn in Hlen; lia|].
    cbn [String.length] in Hlen. cbn [slice] in Hslice.
    destruct (IH s ltac:(lia) Hslice) as [pre ->].
    exists (String c pre). reflexivity.
Qed.

Lemma endsWith_append s p :
  endsWith s p = true -> exists pre, s = pre ++ p.
Proof.
  unfold endsWith. intros Hends.
  apply andb_prop in Hends as [Hlen Heq].
  apply Nat.leb_le in Hlen. apply String.eqb_eq in Heq.
  apply (slice_is_suffix (String.length s - String.length p) s p);
    [lia|exact Heq].
Qed.

Lemma startsWith_append_true (p rest : string) :
  startsWith (p ++ rest) p = true.
Proof. apply prefix_append. Qed.

(** ** More on path resolution *)

(** With a leading separator only the non-empty segments count. *)
Lemma parseObjectPath_segments env (p q : string) :
  startsWith p "/" = true ->
  startsWith q "/" = true ->
  List.filter nonEmpty (split "/" p) = List.filter nonEmpty (split "/" q) ->
  parseObjectPath env p = parseObjectPath env q.
Proof.
  intros Hp Hq Hsegments. unfold parseObjectPath.
  rewrite Hp, Hq, Hsegments. reflexivity.
Qed.

Lemma startsWith_slash_append (d rest : string) :
  startsWith d "/" = true -> startsWith (d ++ rest) "/" = true.
Proof.
  rewrite !startsWith_slash. destruct d as [|c d]; [discriminate|].
  rewrite append_String. trivial.
Qed.

(** The entity id is everything after [/objects/], separators included. *)
Lemma entityId_after_prefix (entityId : string) :
  join "/" (skipn 1 (split "/" (slice 1 ("/objects/" ++ entityId))))
  = entityId.
Proof.
  change (slice 1 ("/objects/" ++ entityId))
    with ("objects" ++ String "/" entityId).
  rewrite split_append. apply join_split.
Qed.

Lemma objectEntityPath_after_prefix (privateObjectDir entityId : string) :
  objectEntityPath privateObjectDir ("/objects/" ++ entityId)
  = (if negb (endsWith privateObjectDir "/") then privateObjectDir ++ "/"
     else privateObjectDir) ++ entityId.
Proof. unfold objectEntityPath. rewrite entityId_after_prefix. reflexivity. Qed.

(** Where [uploadFile] and [getObjectEntityUploadURL] put an object is where
    [getObjectEntityFile] looks for it, unless the private directory ends
    with a separator without starting with one. *)
Lemma parseObjectPath_private_dir env (dir rel : string) :
  endsWith dir "/" = false \/ startsWith dir "/" = true ->
  parseObjectPath env (dir ++ "/" ++ rel)
  = parseObjectPath env
      ((if negb (endsWith dir "/") then dir ++ "/" else dir) ++ rel).
Proof.
  intros Hdir. destruct (endsWith dir "/") eqn:Hends; cbn [negb].
  - destruct Hdir as [Hno|Hstarts]; [discriminate Hno|].
    apply parseObjectPath_segments;
      try (apply startsWith_slash_append; exact Hstarts).
    destruct (endsWith_append _ _ Hends) as [pre ->].
    rewrite !append_assoc, !append_String, !append_Empty.
    rewrite !split_append, !List.filter_app. cbn [split]. rewrite Ascii.eqb_refl.
    reflexivity.
  - rewrite append_assoc. reflexivity.
Qed.

(** X1.  A path with a leading separator and two or more segments resolves
    to a canonical reference: the bucket is a non-empty name free of the
    separator, the key is not empty, and printing the reference as
    [/<bucket>/<key>] and resolving that again gives the same reference,
    however many separators the original path repeated. *)
Theorem parseObjectPath_canonical env path parsed :
  startsWith path "/" = true ->
  (2 <= length (List.filter nonEmpty (split "/" path)))%nat ->
  parseObjectPath env path = Ok parsed ->
  parseObjectPath env ("/" ++ bucketName parsed ++ "/" ++ objectName parsed)
  = Ok parsed
  /\ separatorFree "/" (bucketName parsed)
  /\ bucketName parsed <> ""
  /\ objectName parsed <> "".
Proof.
  intros Hstarts Htwo Hparsed.
  pose proof (filter_nonEmpty_spec (split "/" path)) as Hnonempty.
  pose proof (filter_separatorFree "/" _ (split_pieces_separatorFree "/" path))
    as Hfree.
  assert (Hsame : forall segments,
    List.filter nonEmpty (split "/" path) = segments ->
    segments <> [] ->
    List.filter nonEmpty (split "/" ("/" ++ join "/" segments)) = segments).
  { intros segments <- Hnil.
    rewrite append_String, append_Empty. cbn [split Ascii.eqb Bool.eqb].
    rewrite split_join by assumption.
    cbn [List.filter nonEmpty String.eqb negb].
    apply filter_nonEmpty_id, Hnonempty. }
  destruct (List.filter nonEmpty (split "/" path)) as [|a [|b l]] eqn:Hsegments;
    cbn [length] in Htwo; try lia.
  assert (Hparsed' :
    parsed = {| bucketName := a; objectName := join "/" (b :: l) |}).
  { unfold parseObjectPath in Hparsed. rewrite Hstarts, Hsegments in Hparsed.
    cbn in Hparsed. injection Hparsed as <-. reflexivity. }
  subst parsed. cbn [bucketName objectName].
  inversion Hnonempty as [|? ? Ha Hrest]; subst.
  inversion Hrest as [|? ? Hb _]; subst.
  inversion Hfree as [|? ? Hfree_a _]; subst.
  split; [|split; [exact Hfree_a|split; [exact Ha|]]].
  - rewrite <- Hparsed. apply parseObjectPath_segments;
      [exact (startsWith_slash_append "/" _ eq_refl)|exact Hstarts|].
    rewrite Hsegments. apply (Hsame (a :: b :: l) eq_refl). discriminate.
  - unfold join. destruct b as [|c b]; [contradiction|].
    destruct l; cbn [String.concat]; [discriminate|].
    rewrite append_String. discriminate.
Qed.

Lemma parseObjectPath_canonical_witness :
  parseObjectPath Sample.env "//b///k1/k2/"
  = Ok {| bucketName := "b"; objectName := "k1/k2" |}
  /\ parseObjectPath Sample.env "/b/k1/k2"
     = Ok {| bucketName := "b"; objectName := "k1/k2" |}.
Proof.
  assert (Hparsed : parseObjectPath Sample.env "//b///k1/k2/"
            = Ok {| bucketName := "b"; objectName := "k1/k2" |})
    by reflexivity.
  split; [exact Hparsed|].
  refine (proj1 (parseObjectPath_canonical Sample.env "//b///k1/k2/"
                   _ _ _ Hparsed)).
  - reflexivity.
  - vm_compute. lia.
Defined.

(** The lookup of an entity on a backend that answers: found or not, by
    what the backend holds at the reference of the entity. *)
Lemma getObjectEntityFile_resolves env entityId b privateObjectDir parsed :
  faults b = [] ->
  getPrivateObjectDir env = Ok privateObjectDir ->
  parseObjectPath env
    ((if negb (endsWith privateObjectDir "/") then privateObjectDir ++ "/"
      else privateObjectDir) ++ entityId) = Ok parsed ->
  getObjectEntityFile env ("/objects/" ++ entityId) b
  = (match objects b !! resourcePath (bucketName parsed) (objectName parsed) with
     | Some _ => Ok {| bucket := bucketName parsed; key := objectName parsed |}
     | None => Throw ObjectNotFoundError
     end, b).
Proof.
  intros Hq Hdir Hparsed. unfold getObjectEntityFile.
  rewrite startsWith_append_true. cbn [negb].
  rewrite (objects_prefix_two_parts _ (startsWith_append_true _ _)).
  rewrite Hdir. unfold bind at 1, lift at 1.
  rewrite entityId_after_prefix, Hparsed. unfold bind at 1, lift at 1.
  unfold bind, try_catch. rewrite (getMetadata_answers _ _ Hq).
  cbn [bucket key].
  destruct (objects b !! resourcePath (bucketName parsed) (objectName parsed));
    reflexivity.
Qed.

(** X2.  On a backend that answers, a logical path [/objects/<id>] whose
    object exists resolves to that object: the id is everything after the
    prefix, it is appended to the private directory (closed by a
    separator), and the reference [parseObjectPath] gives for that path is
    returned, the backend left as it was. *)
Theorem getObjectEntityFile_existing env entityId b privateObjectDir parsed o :
  faults b = [] ->
  getPrivateObjectDir env = Ok privateObjectDir ->
  parseObjectPath env
    ((if negb (endsWith privateObjectDir "/") then privateObjectDir ++ "/"
      else privateObjectDir) ++ entityId) = Ok parsed ->
  objects b !! resourcePath (bucketName parsed) (objectName parsed) = Some o ->
  getObjectEntityFile env ("/objects/" ++ entityId) b
  = (Ok {| bucket := bucketName parsed; key := objectName parsed |}, b).
Proof.
  intros Hq Hdir Hparsed Ho.
  rewrite (getObjectEntityFile_resolves env entityId b _ parsed
             Hq Hdir Hparsed).
  rewrite Ho. reflexivity.
Qed.

Lemma getObjectEntityFile_existing_witness :
  getObjectEntityFile Sample.env "/objects/uploads/report" Sample.plain
  = (Ok {| bucket := "media"; key := "private/uploads/report" |},
     Sample.plain).
Proof.
  apply (getObjectEntityFile_existing Sample.env "uploads/report" Sample.plain
           "/media/private"
           {| bucketName := "media"; objectName := "private/uploads/report" |}
           (Sample.stored {[ "uploaded-by" := "u7" ]}));
    vm_compute; reflexivity.
Defined.

(** ** Uploads *)

Lemma getPrivateObjectDir_Ok env dir :
  getPrivateObjectDir env = Ok dir ->
  dir = PRIVATE_OBJECT_DIR env /\ String.eqb dir "" = false.
Proof.
  unfold getPrivateObjectDir.
  destruct (String.eqb (PRIVATE_OBJECT_DIR env) "") eqn:Hempty;
    [discriminate|].
  intros [= <-]. split; [reflexivity|exact Hempty].
Qed.

Section Uploads.
Context `{JSON}.

(** X3.  On a backend that answers, and unless the private directory ends
    with a separator without starting with one: after [uploadFile] has
    returned, the logical path [/objects/<filePath>] resolves to the
    uploaded object; its metadata show the content type given (or
    [application/octet-stream]) and the size of the buffer; it carries no
    policy, so [canAccessObject] denies every caller and every permission
    until a policy is set. *)
Theorem uploadFile_then_getObjectEntityFile
    env filePath fileBuffer contentType b b' :
  faults b = [] ->
  endsWith (PRIVATE_OBJECT_DIR env) "/" = false
  \/ startsWith (PRIVATE_OBJECT_DIR env) "/" = true ->
  uploadFile env filePath fileBuffer contentType b = (Ok tt, b') ->
  exists object,
    getObjectEntityFile env ("/objects/" ++ filePath) b' = (Ok object, b')
    /\ getMetadata object b'
       = (Ok {| contentType :=
                  Some (default "application/octet-stream" contentType);
                size := Some (String.length fileBuffer);
                metadata := Some ∅ |}, b')
    /\ getObjectAclPolicy object b' = (Ok None, b')
    /\ forall userId requestedPermission,
         canAccessObject userId object requestedPermission b' = (Ok false, b').
Proof.
  intros Hq Hdir Hupload. unfold uploadFile in Hupload.
  destruct (getPrivateObjectDir env) as [dir|e] eqn:Hprivate;
    [|discriminate Hupload].
  destruct (getPrivateObjectDir_Ok _ _ Hprivate) as [-> _].
  unfold bind at 1, lift at 1 in Hupload.
  destruct (parseObjectPath env (PRIVATE_OBJECT_DIR env ++ "/" ++ filePath))
    as [parsed|e] eqn:Hparsed; [|discriminate Hupload].
  unfold bind at 1, lift at 1 in Hupload.
  unfold send_PutObjectCommand in Hupload.
  rewrite (request_answers _ _ Hq) in Hupload.
  cbn [put_Bucket put_Key put_Body put_ContentType] in Hupload.
  injection Hupload as <-.
  set (uploaded :=
    {| Body := fileBuffer;
       ContentType := Some (default "application/octet-stream" contentType);
       CacheControl := None; ContentEncoding := None;
       ContentDisposition := None; Metadata := ∅; ETag := None |}).
  set (b' := {| objects := <[resourcePath (bucketName parsed)
                              (objectName parsed) := uploaded]> (objects b);
                faults := faults b |}).
  assert (Hq' : faults b' = []) by exact Hq.
  assert (Hstored :
    objects b' !! resourcePath (bucketName parsed) (objectName parsed)
    = Some uploaded) by apply lookup_insert_eq.
  set (object := {| bucket := bucketName parsed; key := objectName parsed |}).
  assert (Hpolicy : getObjectAclPolicy object b' = (Ok None, b')).
  { rewrite (getObjectAclPolicy_answers object b' uploaded Hq' Hstored).
    reflexivity. }
  exists object. split; [|split; [|split; [exact Hpolicy|]]].
  - rewrite parseObjectPath_private_dir in Hparsed by exact Hdir.
    rewrite (getObjectEntityFile_resolves env filePath b' _ parsed
               Hq' Hprivate Hparsed).
    rewrite Hstored. reflexivity.
  - rewrite (getMetadata_answers object b' Hq'). cbn [bucket key object].
    rewrite Hstored. reflexivity.
  - intros userId requestedPermission. unfold canAccessObject.
    rewrite (bind_Ok _ _ _ _ _ Hpolicy). reflexivity.
Qed.

End Uploads.

Lemma uploadFile_then_getObjectEntityFile_witness :
  exists object,
    getObjectEntityFile Sample.env "/objects/notes/a.txt"
      (snd (uploadFile Sample.env "notes/a.txt" "hello" None Sample.plain))
    = (Ok object,
       snd (uploadFile Sample.env "notes/a.txt" "hello" None Sample.plain))
    /\ getMetadata object
         (snd (uploadFile Sample.env "notes/a.txt" "hello" None Sample.plain))
       = (Ok {| contentType := Some "application/octet-stream";
                size := Some 5%nat;
                metadata := Some ∅ |},
          snd (uploadFile Sample.env "notes/a.txt" "hello" None Sample.plain))
    /\ @getObjectAclPolicy PolicyJson.codec object
         (snd (uploadFile Sample.env "notes/a.txt" "hello" None Sample.plain))
       = (Ok None,
          snd (uploadFile Sample.env "notes/a.txt" "hello" None Sample.plain))
    /\ forall userId requestedPermission,
         @canAccessObject PolicyJson.codec userId object requestedPermission
           (snd (uploadFile Sample.env "notes/a.txt" "hello" None
                   Sample.plain))
         = (Ok false,
            snd (uploadFile Sample.env "notes/a.txt" "hello" None
                   Sample.plain)).
Proof.
  apply (@uploadFile_then_getObjectEntityFile PolicyJson.codec Sample.env
           "notes/a.txt" "hello" None Sample.plain
           (snd (uploadFile Sample.env "notes/a.txt" "hello" None
                   Sample.plain)));
    [reflexivity | left; reflexivity | vm_compute; reflexivity].
Defined.

(** X4.  The upload URL is a PUT capability of 900 seconds for exactly the
    object that the logical path [/objects/uploads/<objectId>] resolves to,
    unless the private directory ends with a separator without starting
    with one. *)
Theorem getObjectEntityUploadURL_signs_entity `{Presigner}
    env objectId privateObjectDir parsed :
  getPrivateObjectDir env = Ok privateObjectDir ->
  endsWith privateObjectDir "/" = false
  \/ startsWith privateObjectDir "/" = true ->
  parseObjectPath env
    (objectEntityPath privateObjectDir ("/objects/uploads/" ++ objectId))
  = Ok parsed ->
  getObjectEntityUploadURL env objectId
  = getSignedUrl {| command_class := PUT;
                    command_Bucket := bucketName parsed;
                    command_Key := objectName parsed |} 900.
Proof.
  intros Hprivate Hdir Hparsed. unfold getObjectEntityUploadURL.
  rewrite Hprivate.
  destruct (getPrivateObjectDir_Ok _ _ Hprivate) as [_ ->].
  change ("/objects/uploads/" ++ objectId)
    with ("/objects/" ++ ("uploads/" ++ objectId)) in Hparsed.
  rewrite objectEntityPath_after_prefix in Hparsed.
  rewrite <- parseObjectPath_private_dir in Hparsed by exact Hdir.
  change (privateObjectDir ++ "/uploads/" ++ objectId)
    with (privateObjectDir ++ "/" ++ "uploads/" ++ objectId).
  rewrite Hparsed. reflexivity.
Qed.

Lemma getObjectEntityUploadURL_signs_entity_witness :
  @getObjectEntityUploadURL Sample.presigner Sample.env "0f3a"
  = Ok "https://signed.example/media/private/uploads/0f3a?X-Method=PUT".
Proof.
  rewrite (@getObjectEntityUploadURL_signs_entity Sample.presigner Sample.env
             "0f3a" "/media/private"
             {| bucketName := "media"; objectName := "private/uploads/0f3a" |});
    [reflexivity | reflexivity | left; reflexivity | reflexivity].
Defined.

Lemma startsWith_slash_append_false (d rest : string) :
  d <> "" -> startsWith d "/" = false -> startsWith (d ++ rest) "/" = false.
Proof.
  rewrite !startsWith_slash. destruct d as [|c d]; [contradiction|].
  rewrite append_String. trivial.
Qed.

Lemma append_separator_differs (d f : string) : d ++ "/" ++ f <> d ++ f.
Proof.
  intros Heq. apply (f_equal String.length) in Heq.
  rewrite !length_append in Heq. cbn [String.length] in Heq. lia.
Qed.

(** X5.  The condition on the private directory is needed for an upload
    to be found again.  When the private directory ends
    with a separator without starting with one, [uploadFile] stores the
    file under the key [<dir>/<filePath>] (two separators in a row) while
    [getObjectEntityFile] looks under [<dir><filePath>]: unless some other
    object already sits there, the uploaded file is reported as not
    found. *)
Theorem uploadFile_not_found_behind_trailing_separator
    env filePath fileBuffer contentType b :
  faults b = [] ->
  R2_BUCKET_NAME env <> "" ->
  startsWith (PRIVATE_OBJECT_DIR env) "/" = false ->
  endsWith (PRIVATE_OBJECT_DIR env) "/" = true ->
  objects b !! resourcePath (R2_BUCKET_NAME env)
                 (PRIVATE_OBJECT_DIR env ++ filePath) = None ->
  exists b',
    uploadFile env filePath fileBuffer contentType b = (Ok tt, b')
    /\ is_Some (objects b' !! resourcePath (R2_BUCKET_NAME env)
                  (PRIVATE_OBJECT_DIR env ++ "/" ++ filePath))
    /\ getObjectEntityFile env ("/objects/" ++ filePath) b'
       = (Throw ObjectNotFoundError, b').
Proof.
  intros Hq Hbucket Hstarts Hends Hfree.
  assert (Hdir : PRIVATE_OBJECT_DIR env <> "").
  { intros Hempty. rewrite Hempty in Hends. discriminate Hends. }
  assert (Hprivate : getPrivateObjectDir env = Ok (PRIVATE_OBJECT_DIR env)).
  { unfold getPrivateObjectDir.
    destruct (String.eqb_spec (PRIVATE_OBJECT_DIR env) "");
      [contradiction|reflexivity]. }
  assert (Hparse : forall rest,
    parseObjectPath env (PRIVATE_OBJECT_DIR env ++ rest)
    = Ok {| bucketName := R2_BUCKET_NAME env;
            objectName := PRIVATE_OBJECT_DIR env ++ rest |}).
  { intros rest. unfold parseObjectPath.
    rewrite (startsWith_slash_append_false _ rest Hdir Hstarts). cbn [negb].
    rewrite (getBucketName_configured _ Hbucket). reflexivity. }
  pose (b' :=
    {| objects :=
         <[resourcePath (R2_BUCKET_NAME env)
             (PRIVATE_OBJECT_DIR env ++ "/" ++ filePath) :=
             {| Body := fileBuffer;
                ContentType :=
                  Some (default "application/octet-stream" contentType);
                CacheControl := None; ContentEncoding := None;
                ContentDisposition := None; Metadata := ∅; ETag := None |}]>
           (objects b);
       faults := faults b |}).
  assert (Hq' : faults b' = []) by exact Hq.
  exists b'. split; [|split].
  - unfold uploadFile. rewrite Hprivate. unfold bind at 1, lift at 1.
    rewrite Hparse. unfold bind at 1, lift at 1.
    unfold send_PutObjectCommand. rewrite (request_answers _ _ Hq).
    reflexivity.
  - cbn [objects b']. rewrite lookup_insert_eq. eexists. reflexivity.
  - unfold getObjectEntityFile.
    rewrite startsWith_append_true. cbn [negb].
    rewrite (objects_prefix_two_parts _ (startsWith_append_true _ _)).
    rewrite Hprivate. unfold bind at 1, lift at 1.
    rewrite entityId_after_prefix, Hends. cbn [negb].
    rewrite Hparse. unfold bind at 1, lift at 1.
    unfold bind, try_catch. rewrite (getMetadata_answers _ _ Hq').
    cbn [bucket key bucketName objectName objects b'].
    rewrite lookup_insert_ne, Hfree; [reflexivity|].
    unfold resourcePath. intros Heq.
    apply (inj (String.app (R2_BUCKET_NAME env))) in Heq.
    apply (inj (String.app "/")) in Heq.
    exact (append_separator_differs _ _ Heq).
Qed.

Lemma uploadFile_not_found_behind_trailing_separator_witness :
  exists b',
    uploadFile {| R2_BUCKET_NAME := "media"; PRIVATE_OBJECT_DIR := "private/" |}
      "a.txt" "hello" None Sample.empty = (Ok tt, b')
    /\ is_Some (objects b' !! resourcePath "media" ("private/" ++ "/" ++ "a.txt"))
    /\ getObjectEntityFile
         {| R2_BUCKET_NAME := "media"; PRIVATE_OBJECT_DIR := "private/" |}
         ("/objects/" ++ "a.txt") b'
       = (Throw ObjectNotFoundError, b').
Proof.
  apply (uploadFile_not_found_behind_trailing_separator
           {| R2_BUCKET_NAME := "media"; PRIVATE_OBJECT_DIR := "private/" |}
           "a.txt" "hello" None Sample.empty);
    (reflexivity || discriminate).
Defined.

(** ** The policy store under any client *)

Lemma send_HeadObjectCommand_cases Bucket Key b :
  exists b', objects b' = objects b
    /\ ((exists e, send_HeadObjectCommand Bucket Key b = (Throw e, b'))
        \/ (exists o, objects b !! resourcePath Bucket Key = Some o
              /\ send_HeadObjectCommand Bucket Key b = (Ok (headOf o), b'))).
Proof.
  unfold send_HeadObjectCommand.
  destruct (request_cases
    (fun b => match objects b !! resourcePath Bucket Key with
              | None => (Throw notFound, b)
              | Some o => (Ok (headOf o), b)
              end) b) as [(e & rest & _ & ->)|(b0 & Hobj & _ & ->)].
  - eexists. split; [|left; eauto]. reflexivity.
  - exists b0. split; [exact Hobj|]. rewrite Hobj.
    destruct (objects b !! resourcePath Bucket Key) as [o|]; eauto.
Qed.

Lemma send_CopyObjectCommand_cases input b :
  exists b',
    (exists e, send_CopyObjectCommand input b = (Throw e, b')
               /\ objects b' = objects b)
    \/ (exists src, objects b !! copy_CopySource input = Some src
          /\ send_CopyObjectCommand input b = (Ok tt, b')
          /\ objects b' =
             <[resourcePath (copy_Bucket input) (copy_Key input) :=
                 {| Body := Body src;
                    ContentType := copy_ContentType input;
                    CacheControl := copy_CacheControl input;
                    ContentEncoding := copy_ContentEncoding input;
                    ContentDisposition := copy_ContentDisposition input;
                    Metadata := copy_Metadata input;
                    ETag := ETag src |}]> (objects b)).
Proof.
  unfold send_CopyObjectCommand.
  match goal with
  | |- context [request ?answer b] =>
      destruct (request_cases answer b)
        as [(e & rest & _ & ->)|(b0 & Hobj & _ & ->)]
  end.
  - eexists. left. eexists. split; reflexivity.
  - cbv beta. rewrite Hobj.
    destruct (objects b !! copy_CopySource input) as [src|].
    + eexists. right. exists src. split; [reflexivity|].
      split; reflexivity.
    + exists b0. left. eexists. split; [reflexivity|exact Hobj].
Qed.

Section PolicyStoreAnyClient.
Context `{JSON}.

(** The metadata a policy write starts from are empty or those of the
    object. *)
Lemma read_current_metadata_cases objectFile b :
  exists currentMetadata b1,
    try_catch
      (let* response := getMetadata objectFile in
       ret (default ∅ (metadata response)))
      (fun _ => ret ∅) b = (Ok currentMetadata, b1)
    /\ objects b1 = objects b
    /\ (currentMetadata = ∅
        \/ exists o,
             objects b !! resourcePath (bucket objectFile) (key objectFile)
             = Some o /\ currentMetadata = Metadata o).
Proof.
  unfold try_catch at 1, bind at 1, getMetadata, try_catch, bind.
  destruct (send_HeadObjectCommand_cases (bucket objectFile) (key objectFile) b)
    as (b1 & Hobj & [[e ->]|(o & Ho & ->)]).
  - unfold throw. destruct (_ || _); eexists _, b1; eauto.
  - eexists _, b1. split; [reflexivity|]. split; [exact Hobj|].
    right. exists o. split; [exact Ho|reflexivity].
Qed.

Lemma merged_metadata_empty text (m : gmap string string) :
  <[ACL_POLICY_METADATA_KEY := text]> ∅ ∪ m
  = <[ACL_POLICY_METADATA_KEY := text]> m.
Proof. rewrite <- insert_union_l. f_equal. apply (left_id_L ∅ (∪)). Qed.

(** The outcomes of a policy write, under any client. *)
Lemma setObjectAclPolicy_outcomes objectFile aclPolicy b r b' :
  setObjectAclPolicy objectFile aclPolicy b = (r, b') ->
  (exists e, r = Throw e /\ objects b' = objects b)
  \/ (exists o,
        objects b !! resourcePath (bucket objectFile) (key objectFile) = Some o
        /\ r = Ok tt
        /\ objects b' =
           <[resourcePath (bucket objectFile) (key objectFile) :=
               withPolicyText (JSON_stringify aclPolicy) o]> (objects b)).
Proof.
  intros Hset. unfold setObjectAclPolicy in Hset.
  destruct (read_current_metadata_cases objectFile b)
    as (currentMetadata & b1 & Hfirst & Hobj1 & Hcurrent).
  rewrite (bind_Ok _ _ _ _ _ Hfirst) in Hset.
  destruct (send_HeadObjectCommand_cases (bucket objectFile) (key objectFile) b1)
    as (b2 & Hobj2 & [[e Hhead]|(o & Ho & Hhead)]).
  - left. unfold bind at 1 in Hset.
    rewrite (try_catch_Throw _ _ _ _ _ Hhead) in Hset.
    unfold throw in Hset. destruct (_ && _) in Hset;
      injection Hset as <- <-; eexists;
      (split; [reflexivity|congruence]).
  - unfold bind at 1 in Hset.
    rewrite (try_catch_Ok _ _ _ _ _ Hhead) in Hset.
    rewrite Hobj1 in Ho.
    match type of Hset with
    | send_CopyObjectCommand ?input b2 = _ =>
        destruct (send_CopyObjectCommand_cases input b2)
          as (b3 & [(e & Hcopy & Hobj3)|(src & Hsrc & Hcopy & Hobj3)]);
        rewrite Hcopy in Hset; injection Hset as <- <-
    end.
    + left. eexists. split; [reflexivity|congruence].
    + right. exists o. split; [exact Ho|]. split; [reflexivity|].
      cbn [copy_CopySource copy_Bucket copy_Key copy_Metadata copy_ContentType
           copy_CacheControl copy_ContentEncoding copy_ContentDisposition
           head_Metadata head_ContentType head_CacheControl
           head_ContentEncoding head_ContentDisposition headOf default]
        in Hsrc, Hobj3.
      change (bucket objectFile ++ "/" ++ key objectFile)
        with (resourcePath (bucket objectFile) (key objectFile)) in Hsrc.
      rewrite Hobj2, Hobj1, Ho in Hsrc. injection Hsrc as <-.
      rewrite Hobj3, Hobj2, Hobj1. f_equal. unfold withPolicyText. f_equal.
      destruct Hcurrent as [->|(o' & Ho' & ->)].
      * apply merged_metadata_empty.
      * assert (o' = o) as -> by congruence. apply merged_metadata.
Qed.

(** X6.  A policy write is all or nothing, whatever the client does (any
    request may fail, the first read included, whose failure is
    swallowed): either it throws and the objects are as before, or it
    returns and the addressed object, which existed, has the policy text
    under the reserved key and is otherwise unchanged; in both cases
    every other object is as before. *)
Theorem setObjectAclPolicy_all_or_nothing objectFile aclPolicy b :
  (exists e b',
     setObjectAclPolicy objectFile aclPolicy b = (Throw e, b')
     /\ objects b' = objects b)
  \/ (exists o b',
        objects b !! resourcePath (bucket objectFile) (key objectFile) = Some o
        /\ setObjectAclPolicy objectFile aclPolicy b = (Ok tt, b')
        /\ objects b' =
           <[resourcePath (bucket objectFile) (key objectFile) :=
               withPolicyText (JSON_stringify aclPolicy) o]> (objects b)).
Proof.
  destruct (setObjectAclPolicy objectFile aclPolicy b) as [r b'] eqn:Hset.
  destruct (setObjectAclPolicy_outcomes _ _ _ _ _ Hset)
    as [(e & -> & Hobj)|(o & Ho & -> & Hobj)].
  - left. exists e, b'. split; [reflexivity|exact Hobj].
  - right. exists o, b'. split; [exact Ho|]. split; [reflexivity|exact Hobj].
Qed.

(** X7.  A policy write never creates, removes or alters an object other
    than the addressed one, whatever its outcome and whatever the client
    does; and it never creates the addressed one. *)
Theorem setObjectAclPolicy_frame objectFile aclPolicy b other :
  other <> resourcePath (bucket objectFile) (key objectFile)
  \/ objects b !! other = None ->
  objects (snd (setObjectAclPolicy objectFile aclPolicy b)) !! other
  = objects b !! other.
Proof.
  intros Hother.
  destruct (setObjectAclPolicy objectFile aclPolicy b) as [r b'] eqn:Hset.
  destruct (setObjectAclPolicy_outcomes _ _ _ _ _ Hset)
    as [(e & -> & Hobj)|(o & Ho & -> & Hobj)]; cbn [snd];
    rewrite Hobj; [reflexivity|].
  destruct Hother as [Hne|Hnone].
  - apply lookup_insert_ne. congruence.
  - apply lookup_insert_ne. intros <-. congruence.
Qed.

End PolicyStoreAnyClient.

Lemma setObjectAclPolicy_frame_witness :
  objects (snd (@setObjectAclPolicy PolicyJson.codec Sample.file
                  Sample.publicOf_u1 Sample.library))
    !! "media/public/banner"
  = objects Sample.library !! "media/public/banner".
Proof.
  apply (@setObjectAclPolicy_frame PolicyJson.codec Sample.file
           Sample.publicOf_u1 Sample.library "media/public/banner").
  left. vm_compute. discriminate.
Defined.

Section PolicyStoreSequences.
Context `{JSON}.

Lemma withPolicyText_twice text1 text2 o :
  withPolicyText text2 (withPolicyText text1 o) = withPolicyText text2 o.
Proof.
  unfold withPolicyText. cbn [Body ContentType CacheControl ContentEncoding
    ContentDisposition Metadata ETag].
  rewrite insert_insert_eq. reflexivity.
Qed.

(** X8.  On a backend that answers, two policy writes to an existing
    object leave exactly what the second one alone would leave: the later
    policy replaces the earlier one and nothing accumulates; in
    particular writing the same policy twice is the same as writing it
    once. *)
Theorem setObjectAclPolicy_last_write_wins objectFile first second b o :
  faults b = [] ->
  objects b !! resourcePath (bucket objectFile) (key objectFile) = Some o ->
  setObjectAclPolicy objectFile second
    (snd (setObjectAclPolicy objectFile first b))
  = setObjectAclPolicy objectFile second b.
Proof.
  intros Hq Ho.
  rewrite (setObjectAclPolicy_answers objectFile first b o Hq Ho). cbn [snd].
  rewrite (setObjectAclPolicy_answers objectFile second b o Hq Ho).
  erewrite setObjectAclPolicy_answers;
    [|exact Hq|cbn [objects]; apply lookup_insert_eq].
  cbn [objects faults]. rewrite insert_insert_eq, withPolicyText_twice.
  reflexivity.
Qed.

End PolicyStoreSequences.

Lemma setObjectAclPolicy_last_write_wins_witness :
  @setObjectAclPolicy PolicyJson.codec Sample.file Sample.publicOf_u1
    (snd (@setObjectAclPolicy PolicyJson.codec Sample.file Sample.privateOf_u1
            Sample.plain))
  = @setObjectAclPolicy PolicyJson.codec Sample.file Sample.publicOf_u1
      Sample.plain.
Proof.
  apply (@setObjectAclPolicy_last_write_wins PolicyJson.codec Sample.file
           Sample.privateOf_u1 Sample.publicOf_u1 Sample.plain
           (Sample.stored {[ "uploaded-by" := "u7" ]}));
    [reflexivity | vm_compute; reflexivity].
Defined.

(** ** Access evaluation as a whole *)

Section AccessDecision.
Context `{JSON}.

Lemma getObjectAclPolicy_objects objectFile b :
  objects (snd (getObjectAclPolicy objectFile b)) = objects b.
Proof.
  unfold getObjectAclPolicy, try_catch, bind.
  pose proof (getMetadata_objects objectFile b) as Hobj.
  destruct (getMetadata objectFile b) as [[response|e] b1]; cbn [snd] in Hobj;
    [|exact Hobj].
  destruct (metadata response ≫= _) as [text|]; [|exact Hobj].
  destruct (String.eqb text ""); [exact Hobj|].
  unfold lift. destruct (JSON_parse text); exact Hobj.
Qed.

Lemma aclRules_loop_never_grants userId requestedPermission rules b :
  aclRules_loop userId requestedPermission rules b = (Ok false, b)
  \/ exists e, aclRules_loop userId requestedPermission rules b = (Throw e, b).
Proof. destruct rules; [left|right; eexists]; reflexivity. Qed.

(** X9.  [canAccessObject] answers true in two cases only: the stored
    policy is public and the request is READ, or the caller's userId is
    not empty and is the owner of the stored policy.  No rule ever grants
    access: whatever the rules, the client and the backend, every other
    call ends in false or in a throw. *)
Theorem canAccessObject_true_iff
    userId objectFile requestedPermission b :
  fst (canAccessObject userId objectFile requestedPermission b) = Ok true
  <-> exists aclPolicy,
        fst (getObjectAclPolicy objectFile b) = Ok (Some aclPolicy)
        /\ ((visibility aclPolicy = public /\ requestedPermission = READ)
            \/ exists caller, userId = Some caller /\ caller <> ""
                              /\ owner aclPolicy = caller).
Proof.
  unfold canAccessObject, bind.
  destruct (getObjectAclPolicy objectFile b) as [[[aclPolicy|]|e] b1];
    cbn [fst].
  2: { split; [discriminate|]. intros (p & Hp & _). discriminate Hp. }
  2: { split; [discriminate|]. intros (p & Hp & _). discriminate Hp. }
  destruct (bool_decide_reflect (visibility aclPolicy = public)) as [Hv|Hv];
    destruct (bool_decide_reflect (requestedPermission = READ)) as [Hr|Hr];
    cbn [andb].
  1: { split; [|reflexivity]. intros _. exists aclPolicy. auto. }
  all: split.
  all: try (intros Htrue; exists aclPolicy; split; [reflexivity|]; right;
            destruct userId as [caller|]; [|discriminate Htrue];
            destruct (String.eqb_spec caller ""); [discriminate Htrue|];
            destruct (String.eqb_spec (owner aclPolicy) caller);
              [exists caller; auto|];
            exfalso;
            destruct (aclRules_loop_never_grants caller requestedPermission
                        (default [] (aclRules aclPolicy)) b1)
              as [Hloop|[e Hloop]];
            rewrite Hloop in Htrue; discriminate Htrue).
  all: intros (p & [= <-] & [[Hv' Hr']|(caller & -> & Hcaller & Howner)]);
    try contradiction.
  all: destruct (String.eqb_spec caller ""); [contradiction|];
    rewrite Howner, String.eqb_refl; reflexivity.
Qed.

(** X10.  Reading a policy and evaluating access never change an object,
    whatever the client does and whatever the outcome. *)
Theorem canAccessObject_reads_only userId objectFile requestedPermission b :
  objects (snd (canAccessObject userId objectFile requestedPermission b))
  = objects b
  /\ objects (snd (getObjectAclPolicy objectFile b)) = objects b.
Proof.
  split; [|apply getObjectAclPolicy_objects].
  unfold canAccessObject, bind.
  pose proof (getObjectAclPolicy_objects objectFile b) as Hobj.
  destruct (getObjectAclPolicy objectFile b) as [[[aclPolicy|]|e] b1];
    cbn [snd] in Hobj |- *; try exact Hobj.
  destruct (_ && _); [exact Hobj|].
  destruct userId as [caller|]; [|exact Hobj].
  destruct (String.eqb caller ""); [exact Hobj|].
  destruct (String.eqb (owner aclPolicy) caller); [exact Hobj|].
  destruct (aclRules_loop_never_grants caller requestedPermission
              (default [] (aclRules aclPolicy)) b1) as [->|[e ->]];
    exact Hobj.
Qed.

(** X11.  When the stored policy has no rules (the property is missing or
    the list is empty), a present caller who is not the owner is denied
    whatever is not a READ of a public object: the answer is false, not an
    error. *)
Theorem canAccessObject_stranger_denied
    objectFile aclPolicy b b' caller requestedPermission :
  getObjectAclPolicy objectFile b = (Ok (Some aclPolicy), b') ->
  default [] (aclRules aclPolicy) = [] ->
  owner aclPolicy <> caller ->
  visibility aclPolicy = private \/ requestedPermission = WRITE ->
  canAccessObject (Some caller) objectFile requestedPermission b
  = (Ok false, b').
Proof.
  intros Hpolicy Hrules Hother Hgate. unfold canAccessObject.
  rewrite (bind_Ok _ _ _ _ _ Hpolicy), Hrules.
  assert (bool_decide (visibility aclPolicy = public)
          && bool_decide (requestedPermission = READ) = false) as ->.
  { destruct Hgate as [-> | ->]; [reflexivity|apply andb_false_r]. }
  destruct (String.eqb caller ""); [reflexivity|].
  destruct (String.eqb_spec (owner aclPolicy) caller); [contradiction|].
  reflexivity.
Qed.

End AccessDecision.

Lemma canAccessObject_stranger_denied_witness :
  @canAccessObject PolicyJson.codec (Some "u2") Sample.file WRITE
    (Sample.withPolicy Sample.publicOf_u1)
  = (Ok false, Sample.withPolicy Sample.publicOf_u1).
Proof.
  apply (@canAccessObject_stranger_denied PolicyJson.codec Sample.file
           Sample.publicOf_u1);
    [vm_compute; reflexivity | reflexivity | discriminate
    | right; reflexivity].
Defined.

(** ** Public search paths *)

Lemma setFrom_fold (xs set : list string) :
  List.NoDup set ->
  List.NoDup
    (fold_left
       (fun set x =>
          if existsb (String.eqb x) set then set else (set ++ [x])%list)
       xs set)
  /\ forall y,
       In y (fold_left
               (fun set x =>
                  if existsb (String.eqb x) set then set else (set ++ [x])%list)
               xs set)
       <-> In y set \/ In y xs.
Proof.
  revert set. induction xs as [|x xs IH]; intros set Hset; cbn [fold_left].
  - split; [exact Hset|]. intros y. cbn [In]. tauto.
  - destruct (existsb (String.eqb x) set) eqn:Hseen.
    + apply existsb_exists in Hseen as (z & Hz & Heq).
      apply String.eqb_eq in Heq. subst z.
      destruct (IH set Hset) as [Hnodup Hin]. split; [exact Hnodup|].
      intros y. rewrite Hin. cbn [In]. split; [tauto|].
      intros [?|[<-|?]]; tauto.
    + assert (Hfresh : ~ In x set).
      { intros Hx. apply Bool.not_true_iff_false in Hseen. apply Hseen.
        apply existsb_exists. exists x. split; [exact Hx|].
        apply String.eqb_refl. }
      assert (Hextended : List.NoDup (set ++ [x])%list).
      { apply List.NoDup_app; [exact Hset| |].
        - repeat constructor. intros [].
        - intros z Hz [<-|[]]. contradiction. }
      destruct (IH _ Hextended) as [Hnodup Hin]. split; [exact Hnodup|].
      intros y. rewrite Hin, in_app_iff. cbn [In]. tauto.
Qed.

Lemma setFrom_spec (xs : list string) :
  List.NoDup (setFrom xs) /\ forall y, In y (setFrom xs) <-> In y xs.
Proof.
  destruct (setFrom_fold xs [] (List.NoDup_nil _)) as [Hnodup Hin].
  split; [exact Hnodup|]. intros y. unfold setFrom. rewrite Hin.
  cbn [In]. tauto.
Qed.

Lemma trimStart_head s :
  trimStart s = ""
  \/ exists c rest, trimStart s = String c rest /\ isWhiteSpace c = false.
Proof.
  induction s as [|c s IH]; [left; reflexivity|]. cbn [trimStart].
  destruct (isWhiteSpace c) eqn:Hc; [exact IH|].
  right. exists c, s. split; [reflexivity|exact Hc].
Qed.

Lemma trimEnd_head c rest :
  isWhiteSpace c = false -> exists kept, trimEnd (String c rest) = String c kept.
Proof.
  intros Hc. cbn [trimEnd]. destruct (trimEnd rest); [|eauto].
  rewrite Hc. eauto.
Qed.

Lemma trimEnd_idempotent s : trimEnd (trimEnd s) = trimEnd s.
Proof.
  induction s as [|c s IH]; [reflexivity|]. cbn [trimEnd].
  destruct (trimEnd s) as [|d kept] eqn:Hkept.
  - destruct (isWhiteSpace c) eqn:Hc; [reflexivity|].
    cbn [trimEnd]. rewrite Hc. reflexivity.
  - change (trimEnd (String c (String d kept)))
      with (match trimEnd (String d kept) with
            | EmptyString => if isWhiteSpace c then EmptyString else String c ""
            | String d' kept' => String c (String d' kept')
            end).
    rewrite IH. reflexivity.
Qed.

(** A trimmed string is left alone by [trim]. *)
Lemma trim_idempotent s : trim (trim s) = trim s.
Proof.
  unfold trim.
  assert (Hhead : trimStart (trimEnd (trimStart s)) = trimEnd (trimStart s)).
  { destruct (trimStart_head s) as [->|(c & rest & -> & Hc)]; [reflexivity|].
    destruct (trimEnd_head c rest Hc) as [kept ->].
    cbn [trimStart]. rewrite Hc. reflexivity. }
  rewrite Hhead. apply trimEnd_idempotent.
Qed.

Lemma trimStart_units (P : ascii -> Prop) s :
  Forall P (list_ascii_of_string s) ->
  Forall P (list_ascii_of_string (trimStart s)).
Proof.
  induction s as [|c s IH]; intros Hall; [exact Hall|].
  cbn [trimStart]. destruct (isWhiteSpace c); [|exact Hall].
  apply IH. cbn [list_ascii_of_string] in Hall.
  inversion Hall; assumption.
Qed.

Lemma trimEnd_units (P : ascii -> Prop) s :
  Forall P (list_ascii_of_string s) ->
  Forall P (list_ascii_of_string (trimEnd s)).
Proof.
  induction s as [|c s IH]; intros Hall; [exact Hall|].
  cbn [list_ascii_of_string] in Hall.
  inversion Hall as [|? ? Hc Hrest]; subst. specialize (IH Hrest).
  cbn [trimEnd]. destruct (trimEnd s) as [|d kept].
  - destruct (isWhiteSpace c); repeat constructor. exact Hc.
  - cbn [list_ascii_of_string] in IH |- *. constructor; assumption.
Qed.

Lemma trim_separatorFree sep s :
  separatorFree sep s -> separatorFree sep (trim s).
Proof.
  unfold separatorFree, trim. intros Hfree.
  apply trimEnd_units, trimStart_units, Hfree.
Qed.

(** X12.  The public search paths, when there are any: the list is not
    empty and has no duplicate; every path is non-empty, already trimmed
    and free of commas; and the paths are exactly the non-empty trimmed
    entries of the comma-separated setting. *)
Theorem getPublicObjectSearchPaths_invariants setting paths :
  getPublicObjectSearchPaths setting = Ok paths ->
  paths <> []
  /\ List.NoDup paths
  /\ Forall (fun p => p <> "" /\ trim p = p /\ separatorFree "," p) paths
  /\ forall p, In p paths
       <-> p <> "" /\ exists entry, In entry (split "," setting)
                                    /\ p = trim entry.
Proof.
  unfold getPublicObjectSearchPaths.
  set (entries := List.filter nonEmpty (List.map trim (split "," setting))).
  destruct (setFrom_spec entries) as [Hnodup Hin].
  destruct (setFrom entries) as [|p0 rest] eqn:Hpaths; [discriminate|].
  cbn [length Nat.eqb]. intros [= <-].
  assert (Hmember : forall p, In p (p0 :: rest)
            <-> p <> "" /\ exists entry, In entry (split "," setting)
                                         /\ p = trim entry).
  { intros p. rewrite Hin. unfold entries. rewrite filter_In, in_map_iff.
    unfold nonEmpty. destruct (String.eqb_spec p ""); cbn [negb].
    - split; [intros [_ Hfalse]; discriminate|intros [Hne _]; contradiction].
    - split.
      + intros [(entry & <- & Hentry) _]. split; [assumption|]. eauto.
      + intros [_ (entry & Hentry & ->)]. split; [eauto|reflexivity]. }
  split; [discriminate|]. split; [exact Hnodup|]. split; [|exact Hmember].
  apply List.Forall_forall. intros p Hp.
  apply Hmember in Hp as [Hne (entry & Hentry & ->)].
  split; [exact Hne|]. split; [apply trim_idempotent|].
  apply trim_separatorFree.
  pose proof (split_pieces_separatorFree "," setting) as Hpieces.
  rewrite List.Forall_forall in Hpieces. apply Hpieces, Hentry.
Qed.

Lemma getPublicObjectSearchPaths_invariants_witness :
  getPublicObjectSearchPaths " /media/public , /cdn/assets,, /media/public "
  = Ok ["/media/public"; "/cdn/assets"]
  /\ List.NoDup ["/media/public"; "/cdn/assets"].
Proof.
  assert (Hpaths :
    getPublicObjectSearchPaths " /media/public , /cdn/assets,, /media/public "
    = Ok ["/media/public"; "/cdn/assets"]) by reflexivity.
  split; [exact Hpaths|].
  exact (proj1 (proj2 (getPublicObjectSearchPaths_invariants _ _ Hpaths))).
Defined.

(** X13.  The search paths are reported as not set exactly when every
    entry of the setting is blank, the empty setting included. *)
Theorem getPublicObjectSearchPaths_not_set setting :
  getPublicObjectSearchPaths setting = Throw (Error search_paths_not_set)
  <-> Forall (fun entry => trim entry = "") (split "," setting).
Proof.
  unfold getPublicObjectSearchPaths.
  set (entries := List.filter nonEmpty (List.map trim (split "," setting))).
  destruct (setFrom_spec entries) as [_ Hin].
  assert (Hentries : forall p, In p entries
            <-> p <> "" /\ exists entry, In entry (split "," setting)
                                         /\ trim entry = p).
  { intros p. unfold entries. rewrite filter_In, in_map_iff.
    unfold nonEmpty. destruct (String.eqb_spec p ""); cbn [negb].
    - split; [intros [_ Hfalse]; discriminate|intros [Hne _]; contradiction].
    - split.
      + intros [(entry & Htrim & Hentry) _]. split; [assumption|]. eauto.
      + intros [_ (entry & Hentry & Htrim)]. split; [eauto|reflexivity]. }
  destruct (setFrom entries) as [|p0 rest] eqn:Hpaths; cbn [length Nat.eqb].
  - split; [intros _|reflexivity].
    apply List.Forall_forall. intros entry Hentry.
    destruct (String.eqb_spec (trim entry) "") as [|Hne]; [assumption|].
    exfalso. apply (proj2 (Hin (trim entry))). apply Hentries. eauto.
  - split; [discriminate|]. intros Hblank. exfalso.
    assert (Hp0 : In p0 entries) by (apply Hin; left; reflexivity).
    apply Hentries in Hp0 as [Hne (entry & Hentry & Htrim)].
    rewrite List.Forall_forall in Hblank.
    rewrite (Hblank entry Hentry) in Htrim. congruence.
Qed.

(** ** Searching the public paths *)

Lemma searchPublicObject_loop_skip env filePath b skipped rest :
  faults b = [] ->
  Forall (fun searchPath =>
            exists parsed,
              parseObjectPath env (searchPath ++ "/" ++ filePath) = Ok parsed
              /\ objects b !! resourcePath (bucketName parsed)
                                (objectName parsed) = None) skipped ->
  searchPublicObject_loop env filePath (skipped ++ rest)%list b
  = searchPublicObject_loop env filePath rest b.
Proof.
  intros Hq Hskipped.
  induction Hskipped as [|searchPath skipped (parsed & Hparsed & Hmiss) _ IH];
    [reflexivity|].
  cbn [app searchPublicObject_loop]. rewrite Hparsed.
  unfold bind at 1, lift at 1. unfold try_catch at 1, bind at 1.
  rewrite (getMetadata_answers _ _ Hq). cbn [bucket key]. rewrite Hmiss.
  cbn [instanceof_ObjectNotFoundError]. exact IH.
Qed.

Lemma afterRequests_0 b : afterRequests 0 b = b.
Proof. destruct b. reflexivity. Qed.

Lemma afterRequests_add n m b :
  afterRequests m (afterRequests n b) = afterRequests (n + m) b.
Proof. unfold afterRequests. cbn [objects faults]. now rewrite drop_drop. Qed.

Lemma answersNext_add n m b :
  answersNext (n + m) b ->
  answersNext n b /\ answersNext m (afterRequests n b).
Proof.
  unfold answersNext, afterRequests. cbn [faults].
  generalize (faults b) as pending. clear b.
  induction n as [|n IH]; intros pending Hall.
  - split; [constructor|exact Hall].
  - destruct pending as [|f pending].
    + rewrite take_nil, drop_nil, take_nil. split; constructor.
    + cbn [Nat.add take] in Hall. inversion Hall as [|? ? Hf Hrest]; subst.
      destruct (IH _ Hrest) as [Hn Hm].
      split; [constructor; [reflexivity|exact Hn]|exact Hm].
Qed.

(** A request that meets no pending fault is answered, and uses up its
    place in the sequence of requests. *)
Lemma request_answered {A} (answer : Backend -> Result A * Backend) b :
  answersNext 1 b -> request answer b = answer (afterRequests 1 b).
Proof.
  unfold answersNext, afterRequests, request.
  destruct b as [objs [|[e|] rest]]; cbn; intros Hall.
  - reflexivity.
  - inversion Hall; discriminate.
  - reflexivity.
Qed.

Lemma getMetadata_answered this b :
  answersNext 1 b ->
  getMetadata this b =
    match objects b !! resourcePath (bucket this) (key this) with
    | None => (Throw ObjectNotFoundError, afterRequests 1 b)
    | Some o => (Ok {| contentType := ContentType o;
                       size := Some (String.length (Body o));
                       metadata := Some (Metadata o) |}, afterRequests 1 b)
    end.
Proof.
  intros Hnext. unfold getMetadata, try_catch, bind, send_HeadObjectCommand.
  rewrite (request_answered _ _ Hnext). cbn [objects afterRequests].
  destruct (objects b !! resourcePath (bucket this) (key this)); reflexivity.
Qed.

(** Passing over the paths under which the file is missing costs one
    request each. *)
Lemma searchPublicObject_loop_passes env filePath skipped rest b :
  answersNext (length skipped) b ->
  Forall (fun searchPath =>
            exists parsed,
              parseObjectPath env (searchPath ++ "/" ++ filePath) = Ok parsed
              /\ objects b !! resourcePath (bucketName parsed)
                                (objectName parsed) = None) skipped ->
  searchPublicObject_loop env filePath (skipped ++ rest)%list b
  = searchPublicObject_loop env filePath rest
      (afterRequests (length skipped) b).
Proof.
  revert b. induction skipped as [|searchPath skipped IH]; intros b Hnext Hskipped.
  - cbn [app length]. now rewrite afterRequests_0.
  - inversion Hskipped as [|? ? (parsed & Hparsed & Hmiss) Hothers]; subst.
    destruct (answersNext_add 1 (length skipped) b Hnext) as [Hfirst Hlater].
    cbn [app searchPublicObject_loop length]. rewrite Hparsed.
    unfold bind at 1, lift at 1. unfold try_catch at 1, bind at 1.
    rewrite (getMetadata_answered _ _ Hfirst). cbn [bucket key].
    rewrite Hmiss. cbn [instanceof_ObjectNotFoundError].
    rewrite (IH (afterRequests 1 b) Hlater Hothers).
    now rewrite afterRequests_add.
Qed.

(** X14.  [searchPublicObject] sends one request for each search path up
    to the first under which the file exists, and none after it.  When
    those requests are answered, whatever is pending for the requests that
    would follow (an outage included), it returns the object of that path:
    the paths before it, under which the file is missing, are passed over,
    the paths after it are not consulted, and no object is changed. *)
Theorem searchPublicObject_first_existing
    env setting filePath b skipped searchPath later parsed o :
  answersNext (S (length skipped)) b ->
  getPublicObjectSearchPaths setting
  = Ok (skipped ++ searchPath :: later)%list ->
  Forall (fun skippedPath =>
            exists parsed',
              parseObjectPath env (skippedPath ++ "/" ++ filePath) = Ok parsed'
              /\ objects b !! resourcePath (bucketName parsed')
                                (objectName parsed') = None) skipped ->
  parseObjectPath env (searchPath ++ "/" ++ filePath) = Ok parsed ->
  objects b !! resourcePath (bucketName parsed) (objectName parsed) = Some o ->
  searchPublicObject env setting filePath b
  = (Ok (Some {| bucket := bucketName parsed; key := objectName parsed |}),
     afterRequests (S (length skipped)) b).
Proof.
  intros Hnext Hpaths Hskipped Hparsed Ho. unfold searchPublicObject.
  rewrite Hpaths. unfold bind at 1, lift at 1.
  rewrite <- Nat.add_1_r in Hnext |- *.
  destruct (answersNext_add _ _ _ Hnext) as [Hbefore Hthis].
  rewrite (searchPublicObject_loop_passes _ _ _ _ _ Hbefore Hskipped).
  cbn [searchPublicObject_loop]. rewrite Hparsed.
  unfold bind at 1, lift at 1. unfold try_catch, bind.
  rewrite (getMetadata_answered _ _ Hthis). cbn [bucket key objects afterRequests].
  rewrite Ho. unfold ret. rewrite <- afterRequests_add. reflexivity.
Qed.

Lemma searchPublicObject_first_existing_witness :
  searchPublicObject Sample.env "/media/archive, /media/private, /media/public"
    "uploads/report" Sample.libraryBeforeOutage
  = (Ok (Some {| bucket := "media"; key := "private/uploads/report" |}),
     {| objects := objects Sample.library;
        faults := [Some Sample.serviceUnavailable] |}).
Proof.
  apply (searchPublicObject_first_existing Sample.env
           "/media/archive, /media/private, /media/public" "uploads/report"
           Sample.libraryBeforeOutage
           ["/media/archive"] "/media/private" ["/media/public"]
           {| bucketName := "media"; objectName := "private/uploads/report" |}
           (Sample.stored {[ "uploaded-by" := "u7" ]})).
  - repeat constructor.
  - vm_compute. reflexivity.
  - constructor; [|constructor].
    exists {| bucketName := "media"; objectName := "archive/uploads/report" |}.
    split; vm_compute; reflexivity.
  - vm_compute. reflexivity.
  - vm_compute. reflexivity.
Defined.

(** A file that is under no path is looked for under all three, and the
    third request meets the outage. *)
Example searchPublicObject_outage_reached :
  searchPublicObject Sample.env "/media/archive, /media/private, /media/public"
    "uploads/absent" Sample.libraryBeforeOutage
  = (Throw Sample.serviceUnavailable,
     {| objects := objects Sample.library; faults := [] |}).
Proof. vm_compute. reflexivity. Qed.

(** X15.  On a backend that answers, when the file is missing under every
    search path, [searchPublicObject] returns null and leaves the backend
    as it was. *)
Theorem searchPublicObject_missing_everywhere env setting filePath b paths :
  faults b = [] ->
  getPublicObjectSearchPaths setting = Ok paths ->
  Forall (fun searchPath =>
            exists parsed,
              parseObjectPath env (searchPath ++ "/" ++ filePath) = Ok parsed
              /\ objects b !! resourcePath (bucketName parsed)
                                (objectName parsed) = None) paths ->
  searchPublicObject env setting filePath b = (Ok None, b).
Proof.
  intros Hq Hpaths Hmissing. unfold searchPublicObject.
  rewrite Hpaths. unfold bind at 1, lift at 1.
  rewrite <- (app_nil_r paths).
  rewrite (searchPublicObject_loop_skip _ _ _ _ _ Hq Hmissing).
  reflexivity.
Qed.

Lemma searchPublicObject_missing_everywhere_witness :
  searchPublicObject Sample.env "/media/archive, /media/public"
    "uploads/report" Sample.library
  = (Ok None, Sample.library).
Proof.
  apply (searchPublicObject_missing_everywhere Sample.env
           "/media/archive, /media/public" "uploads/report" Sample.library
           ["/media/archive"; "/media/public"]);
    try (vm_compute; reflexivity).
  constructor; [|constructor; [|constructor]].
  - exists {| bucketName := "media"; objectName := "archive/uploads/report" |}.
    split; vm_compute; reflexivity.
  - exists {| bucketName := "media"; objectName := "public/uploads/report" |}.
    split; vm_compute; reflexivity.
Defined.

Lemma getMetadata_Ok_exists this b response b' :
  getMetadata this b = (Ok response, b') ->
  is_Some (objects b !! resourcePath (bucket this) (key this)).
Proof.
  unfold getMetadata, try_catch, bind.
  destruct (send_HeadObjectCommand_cases (bucket this) (key this) b)
    as (b1 & _ & [[e ->]|(o & Ho & ->)]).
  - unfold throw. destruct (_ || _); discriminate.
  - intros _. rewrite Ho. eauto.
Qed.

Lemma searchPublicObject_loop_sound env filePath paths b r b' :
  searchPublicObject_loop env filePath paths b = (r, b') ->
  objects b' = objects b
  /\ forall object,
       r = Ok (Some object) ->
       is_Some (objects b !! resourcePath (bucket object) (key object))
       /\ exists searchPath parsed,
            In searchPath paths
            /\ parseObjectPath env (searchPath ++ "/" ++ filePath) = Ok parsed
            /\ object = {| bucket := bucketName parsed;
                           key := objectName parsed |}.
Proof.
  revert b. induction paths as [|searchPath rest IH]; intros b Hloop.
  - injection Hloop as <- <-. split; [reflexivity|discriminate].
  - cbn [searchPublicObject_loop] in Hloop.
    destruct (parseObjectPath env (searchPath ++ "/" ++ filePath))
      as [parsed|e] eqn:Hparsed; unfold bind at 1, lift at 1 in Hloop;
      [|injection Hloop as <- <-; split; [reflexivity|discriminate]].
    unfold try_catch, bind in Hloop.
    pose proof (getMetadata_objects
      {| bucket := bucketName parsed; key := objectName parsed |} b) as Hobj.
    destruct (getMetadata
      {| bucket := bucketName parsed; key := objectName parsed |} b)
      as [[response|e] b1] eqn:Hmeta; cbn [snd] in Hobj.
    + unfold ret in Hloop. injection Hloop as <- <-. split; [exact Hobj|].
      intros object Hfound. injection Hfound as <-.
      split; [exact (getMetadata_Ok_exists _ _ _ _ Hmeta)|].
      exists searchPath, parsed. cbn [In]. auto.
    + destruct (instanceof_ObjectNotFoundError e);
        [|unfold throw in Hloop; injection Hloop as <- <-;
          split; [exact Hobj|discriminate]].
      destruct (IH b1 Hloop) as [Hobj1 Hsound]. split; [congruence|].
      intros object Hfound. destruct (Hsound object Hfound)
        as [Hexists (sp & parsed' & Hin & Hp & ->)].
      rewrite Hobj in Hexists. split; [exact Hexists|].
      exists sp, parsed'. cbn [In]. auto.
Qed.

(** X16.  Whatever the client does, [searchPublicObject] never changes an
    object, and an object it returns is one the backend holds, at the
    reference of one of the configured search paths followed by the file
    path: an outage is never answered with an object that is not
    there. *)
Theorem searchPublicObject_sound env setting filePath b :
  objects (snd (searchPublicObject env setting filePath b)) = objects b
  /\ forall object,
       fst (searchPublicObject env setting filePath b) = Ok (Some object) ->
       is_Some (objects b !! resourcePath (bucket object) (key object))
       /\ exists paths searchPath parsed,
            getPublicObjectSearchPaths setting = Ok paths
            /\ In searchPath paths
            /\ parseObjectPath env (searchPath ++ "/" ++ filePath) = Ok parsed
            /\ object = {| bucket := bucketName parsed;
                           key := objectName parsed |}.
Proof.
  destruct (searchPublicObject env setting filePath b) as [r b'] eqn:Hsearch.
  cbn [fst snd]. unfold searchPublicObject in Hsearch.
  destruct (getPublicObjectSearchPaths setting) as [paths|e];
    unfold bind, lift in Hsearch;
    [|injection Hsearch as <- <-; split; [reflexivity|discriminate]].
  destruct (searchPublicObject_loop_sound env filePath paths b r b' Hsearch)
    as [Hobj Hsound].
  split; [exact Hobj|]. intros object Hfound.
  destruct (Hsound object Hfound) as [Hexists (sp & parsed & Hin & Hp & ->)].
  split; [exact Hexists|]. exists paths, sp, parsed. auto.
Qed.

(** ** Normalised paths and entity policies *)

Lemma normalizeObjectEntityPath_logical `{URL} env (entityId : string) :
  normalizeObjectEntityPath env ("/objects/" ++ entityId)
  = Ok ("/objects/" ++ entityId).
Proof. reflexivity. Qed.

(** X17.  For an R2 URL whose pathname the platform reports, with the
    private directory configured: a pathname outside the private directory
    is returned as it is; a pathname inside it becomes the logical path
    [/objects/<rest>], and that logical path leads [getObjectEntityFile]
    back to exactly the pathname of the URL. *)
Theorem normalizeObjectEntityPath_r2_url `{URL}
    env rawPath privateObjectDir pathname :
  startsWith rawPath "https://" = true ->
  includesText rawPath ".r2.cloudflarestorage.com" = true ->
  getPrivateObjectDir env = Ok privateObjectDir ->
  URL_pathname rawPath = Ok pathname ->
  (startsWith pathname
     (if negb (endsWith privateObjectDir "/") then privateObjectDir ++ "/"
      else privateObjectDir) = false ->
   normalizeObjectEntityPath env rawPath = Ok pathname)
  /\ (forall entityId,
        pathname
        = (if negb (endsWith privateObjectDir "/") then privateObjectDir ++ "/"
           else privateObjectDir) ++ entityId ->
        normalizeObjectEntityPath env rawPath = Ok ("/objects/" ++ entityId)
        /\ objectEntityPath privateObjectDir ("/objects/" ++ entityId)
           = pathname).
Proof.
  intros Hhttps Hr2 Hprivate Hpathname. unfold normalizeObjectEntityPath.
  rewrite Hhttps, Hr2, Hpathname, Hprivate. cbn [andb].
  split.
  - intros ->. reflexivity.
  - intros entityId ->. rewrite startsWith_append_true, slice_append.
    split; [reflexivity|apply objectEntityPath_after_prefix].
Qed.

Lemma normalizeObjectEntityPath_r2_url_witness :
  @normalizeObjectEntityPath Sample.url Sample.env
    "https://acct.r2.cloudflarestorage.com/media/private/uploads/report"
  = Ok "/objects/uploads/report"
  /\ objectEntityPath "/media/private" "/objects/uploads/report"
     = "/media/private/uploads/report".
Proof.
  refine (proj2 (@normalizeObjectEntityPath_r2_url Sample.url Sample.env
    "https://acct.r2.cloudflarestorage.com/media/private/uploads/report"
    "/media/private" "/media/private/uploads/report" _ _ _ _)
    "uploads/report" _); vm_compute; reflexivity.
Defined.

Section EntityPolicyClaims.
Context `{JSON} `{URL}.

(** X18.  [trySetObjectEntityAclPolicy] does not touch the backend, not
    even with a request, for a raw path that normalises to something other
    than a logical path under [/objects/]: without leading separator the
    normalised value is returned, with one the call ends in
    [ObjectNotFoundError]. *)
Theorem trySetObjectEntityAclPolicy_outside_entities
    env rawPath aclPolicy b normalizedPath :
  normalizeObjectEntityPath env rawPath = Ok normalizedPath ->
  startsWith normalizedPath "/objects/" = false ->
  trySetObjectEntityAclPolicy env rawPath aclPolicy b
  = (if startsWith normalizedPath "/" then Throw ObjectNotFoundError
     else Ok normalizedPath, b).
Proof.
  intros Hnormalized Houtside. unfold trySetObjectEntityAclPolicy.
  rewrite Hnormalized. unfold bind at 1, lift at 1.
  destruct (startsWith normalizedPath "/"); cbn [negb]; [|reflexivity].
  unfold bind at 1, getObjectEntityFile. rewrite Houtside. reflexivity.
Qed.

(** X19.  On a backend that answers, for a logical path [/objects/<id>]
    whose object exists and a policy the JSON codec reads back:
    [trySetObjectEntityAclPolicy] returns the path; afterwards the path
    resolves to the same object, the object carries the policy, a public
    policy lets an anonymous caller read through [canAccessObjectEntity]
    with no permission given, and a non-empty owner is granted whatever it
    asks. *)
Theorem trySetObjectEntityAclPolicy_entity
    env entityId aclPolicy b privateObjectDir parsed o :
  faults b = [] ->
  getPrivateObjectDir env = Ok privateObjectDir ->
  parseObjectPath env
    ((if negb (endsWith privateObjectDir "/") then privateObjectDir ++ "/"
      else privateObjectDir) ++ entityId) = Ok parsed ->
  objects b !! resourcePath (bucketName parsed) (objectName parsed) = Some o ->
  JSON_parse (JSON_stringify aclPolicy) = Ok aclPolicy ->
  JSON_stringify aclPolicy <> "" ->
  exists b',
    let object := {| bucket := bucketName parsed; key := objectName parsed |} in
    trySetObjectEntityAclPolicy env ("/objects/" ++ entityId) aclPolicy b
    = (Ok ("/objects/" ++ entityId), b')
    /\ getObjectEntityFile env ("/objects/" ++ entityId) b' = (Ok object, b')
    /\ getObjectAclPolicy object b' = (Ok (Some aclPolicy), b')
    /\ (visibility aclPolicy = public ->
        canAccessObjectEntity None object None b' = (Ok true, b'))
    /\ (owner aclPolicy <> "" ->
        forall requestedPermission,
          canAccessObjectEntity (Some (owner aclPolicy)) object
            requestedPermission b' = (Ok true, b')).
Proof.
  intros Hq Hprivate Hparsed Ho Hround Hne.
  set (object := {| bucket := bucketName parsed; key := objectName parsed |}).
  pose (b' :=
    {| objects :=
         <[resourcePath (bucket object) (key object) :=
             withPolicyText (JSON_stringify aclPolicy) o]> (objects b);
       faults := faults b |}).
  assert (Hq' : faults b' = []) by exact Hq.
  assert (Hstored :
    objects b' !! resourcePath (bucket object) (key object)
    = Some (withPolicyText (JSON_stringify aclPolicy) o))
    by apply lookup_insert_eq.
  assert (Hpolicy : getObjectAclPolicy object b' = (Ok (Some aclPolicy), b')).
  { rewrite (getObjectAclPolicy_answers _ _ _ Hq' Hstored).
    cbn [withPolicyText Metadata]. rewrite lookup_insert_eq.
    destruct (String.eqb_spec (JSON_stringify aclPolicy) "");
      [contradiction|].
    rewrite Hround. reflexivity. }
  exists b'. cbv zeta. fold object.
  split; [|split; [|split; [exact Hpolicy|split]]].
  - unfold trySetObjectEntityAclPolicy.
    rewrite normalizeObjectEntityPath_logical. unfold bind at 1, lift at 1.
    rewrite (startsWith_slash_append "/objects/" entityId eq_refl).
    cbn [negb].
    assert (Hfile : getObjectEntityFile env ("/objects/" ++ entityId) b
                    = (Ok object, b)).
    { rewrite (getObjectEntityFile_resolves env entityId b _ parsed
                 Hq Hprivate Hparsed).
      rewrite Ho. reflexivity. }
    rewrite (bind_Ok _ _ _ _ _ Hfile).
    rewrite (bind_Ok _ _ _ _ _
      (setObjectAclPolicy_answers object aclPolicy b o Hq Ho)).
    reflexivity.
  - rewrite (getObjectEntityFile_resolves env entityId b' _ parsed
               Hq' Hprivate Hparsed).
    change (resourcePath (bucketName parsed) (objectName parsed))
      with (resourcePath (bucket object) (key object)).
    rewrite Hstored. reflexivity.
  - intros Hpublic. unfold canAccessObjectEntity, canAccessObject.
    rewrite (bind_Ok _ _ _ _ _ Hpolicy), Hpublic. reflexivity.
  - intros Howner requestedPermission.
    unfold canAccessObjectEntity, canAccessObject.
    rewrite (bind_Ok _ _ _ _ _ Hpolicy).
    destruct (_ && _); [reflexivity|].
    destruct (String.eqb_spec (owner aclPolicy) ""); [contradiction|].
    rewrite String.eqb_refl. reflexivity.
Qed.

End EntityPolicyClaims.

Lemma trySetObjectEntityAclPolicy_outside_entities_witness :
  @trySetObjectEntityAclPolicy PolicyJson.codec Sample.url Sample.env
    "https://cdn.example/banner.png" Sample.publicOf_u1 Sample.library
  = (Ok "https://cdn.example/banner.png", Sample.library)
  /\ @trySetObjectEntityAclPolicy PolicyJson.codec Sample.url Sample.env
       "/media/private/uploads/report" Sample.publicOf_u1 Sample.library
     = (Throw ObjectNotFoundError, Sample.library).
Proof.
  split.
  - apply (@trySetObjectEntityAclPolicy_outside_entities PolicyJson.codec
             Sample.url Sample.env "https://cdn.example/banner.png"
             Sample.publicOf_u1 Sample.library
             "https://cdn.example/banner.png"); reflexivity.
  - apply (@trySetObjectEntityAclPolicy_outside_entities PolicyJson.codec
             Sample.url Sample.env "/media/private/uploads/report"
             Sample.publicOf_u1 Sample.library
             "/media/private/uploads/report"); reflexivity.
Defined.

Lemma trySetObjectEntityAclPolicy_entity_witness :
  exists b',
    @trySetObjectEntityAclPolicy PolicyJson.codec Sample.url Sample.env
      "/objects/uploads/report" Sample.publicOf_u1 Sample.library
    = (Ok "/objects/uploads/report", b')
    /\ @canAccessObjectEntity PolicyJson.codec None Sample.file None b'
       = (Ok true, b').
Proof.
  destruct (@trySetObjectEntityAclPolicy_entity PolicyJson.codec Sample.url
              Sample.env "uploads/report" Sample.publicOf_u1 Sample.library
              "/media/private"
              {| bucketName := "media";
                 objectName := "private/uploads/report" |}
              (Sample.stored {[ "uploaded-by" := "u7" ]}))
    as (b' & Hset & _ & _ & Hread & _);
    try (vm_compute; reflexivity).
  - vm_compute. discriminate.
  - exists b'. split; [exact Hset|]. apply Hread. reflexivity.
Defined.

(** ** User input *)

Lemma removeControlUnits_clean s :
  Forall (fun c => isControlUnit c = false)
    (list_ascii_of_string (removeControlUnits s)).
Proof.
  induction s as [|c s IH]; [constructor|]. cbn [removeControlUnits].
  destruct (isControlUnit c) eqn:Hc; [exact IH|].
  cbn [list_ascii_of_string]. constructor; assumption.
Qed.

Lemma trimStart_sublist s :
  sublist (list_ascii_of_string (trimStart s)) (list_ascii_of_string s).
Proof.
  induction s as [|c s IH]; [constructor|]. cbn [trimStart].
  destruct (isWhiteSpace c); [|reflexivity].
  cbn [list_ascii_of_string]. apply sublist_cons, IH.
Qed.

Lemma trimEnd_sublist s :
  sublist (list_ascii_of_string (trimEnd s)) (list_ascii_of_string s).
Proof.
  induction s as [|c s IH]; [constructor|]. cbn [trimEnd].
  destruct (trimEnd s) as [|d kept].
  - destruct (isWhiteSpace c); cbn [list_ascii_of_string].
    + apply sublist_nil_l.
    + apply sublist_skip, sublist_nil_l.
  - cbn [list_ascii_of_string] in IH |- *. apply sublist_skip, IH.
Qed.

Lemma removeControlUnits_sublist s :
  sublist (list_ascii_of_string (removeControlUnits s))
    (list_ascii_of_string s).
Proof.
  induction s as [|c s IH]; [constructor|]. cbn [removeControlUnits].
  destruct (isControlUnit c); cbn [list_ascii_of_string].
  - apply sublist_cons, IH.
  - apply sublist_skip, IH.
Qed.

Lemma limitLineFeeds_sublist run s :
  sublist (list_ascii_of_string (limitLineFeeds run s))
    (list_ascii_of_string s).
Proof.
  revert run. induction s as [|c s IH]; intros run; [constructor|].
  cbn [limitLineFeeds].
  destruct (Ascii.eqb c lineFeed); [destruct (2 <=? run)%nat|];
    cbn [list_ascii_of_string].
  - apply sublist_cons, IH.
  - apply sublist_skip, IH.
  - apply sublist_skip, IH.
Qed.

Lemma limitLineFeeds_units (P : ascii -> Prop) run s :
  Forall P (list_ascii_of_string s) ->
  Forall P (list_ascii_of_string (limitLineFeeds run s)).
Proof.
  revert run. induction s as [|c s IH]; intros run Hall; [exact Hall|].
  cbn [list_ascii_of_string] in Hall.
  inversion Hall as [|? ? Hc Hrest]; subst.
  cbn [limitLineFeeds].
  destruct (Ascii.eqb c lineFeed); [destruct (2 <=? run)%nat|];
    cbn [list_ascii_of_string]; auto.
Qed.

(** After [limitLineFeeds], at every position at most two line feeds
    follow in a row; at the start, as many fewer as the run had. *)
Lemma limitLineFeeds_runs s :
  forall run (before after : string),
    (run <= 2)%nat ->
    limitLineFeeds run s = before ++ after ->
    (leadingLineFeeds after <= 2)%nat
    /\ (before = "" -> (leadingLineFeeds after + run <= 2)%nat).
Proof.
  induction s as [|c s IH]; intros run before after Hrun Hsplit.
  - cbn [limitLineFeeds] in Hsplit.
    destruct before; [|discriminate Hsplit].
    rewrite append_Empty in Hsplit. subst after. cbn. lia.
  - cbn [limitLineFeeds] in Hsplit.
    destruct (Ascii.eqb c lineFeed) eqn:Hc.
    + destruct (2 <=? run)%nat eqn:Hfull.
      * exact (IH run before after Hrun Hsplit).
      * apply Nat.leb_gt in Hfull.
        destruct before as [|d before].
        -- rewrite append_Empty in Hsplit. subst after.
           cbn [leadingLineFeeds]. rewrite Hc.
           destruct (IH (S run) "" (limitLineFeeds (S run) s)
                       ltac:(lia) eq_refl) as [_ Hstart].
           specialize (Hstart eq_refl). split; [lia|intros _; lia].
        -- rewrite append_String in Hsplit. injection Hsplit as _ Hsplit.
           destruct (IH (S run) before after ltac:(lia) Hsplit) as [Hafter _].
           split; [exact Hafter|discriminate].
    + destruct before as [|d before].
      * rewrite append_Empty in Hsplit. subst after.
        cbn [leadingLineFeeds]. rewrite Hc. split; [lia|intros _; lia].
      * rewrite append_String in Hsplit. injection Hsplit as _ Hsplit.
        destruct (IH 0%nat before after ltac:(lia) Hsplit) as [Hafter _].
        split; [exact Hafter|discriminate].
Qed.

(** X20.  [sanitizeUserInput] only deletes: its result is the input with
    some units left out, in the same order.  The result holds no control
    unit other than TAB, LF and CR, and at no position of it do more than
    two line feeds follow in a row. *)
Theorem sanitizeUserInput_clean input :
  sublist (list_ascii_of_string (sanitizeUserInput input))
    (list_ascii_of_string input)
  /\ Forall (fun c => isControlUnit c = false)
       (list_ascii_of_string (sanitizeUserInput input))
  /\ forall before after,
       sanitizeUserInput input = before ++ after ->
       (leadingLineFeeds after <= 2)%nat.
Proof.
  unfold sanitizeUserInput.
  destruct (String.eqb_spec input "") as [->|_].
  - split; [reflexivity|]. split; [constructor|].
    intros [|c before] after Hsplit; [|discriminate Hsplit].
    rewrite append_Empty in Hsplit. subst after. cbn. lia.
  - split; [|split].
    + etransitivity; [apply limitLineFeeds_sublist|].
      etransitivity; [apply removeControlUnits_sublist|].
      unfold trim.
      etransitivity; [apply trimEnd_sublist|apply trimStart_sublist].
    + apply limitLineFeeds_units, removeControlUnits_clean.
    + intros before after Hsplit.
      exact (proj1 (limitLineFeeds_runs _ 0%nat before after ltac:(lia) Hsplit)).
Qed.

Example sanitizeUserInput_sample :
  sanitizeUserInput
    ("  a" ++ String lineFeed (String lineFeed (String lineFeed
       (String lineFeed ("b " ++ String "000" " ")))))
  = "a" ++ String lineFeed (String lineFeed "b ").
Proof. reflexivity. Qed.

(** ** Text to speech *)

Lemma fold_left_lengths (chunks : list (list Byte.byte)) start :
  fold_left (fun acc chunk => (acc + length chunk)%nat) chunks start
  = (start + length (concat chunks))%nat.
Proof.
  revert start. induction chunks as [|chunk rest IH]; intros start;
    cbn [fold_left concat].
  - cbn. lia.
  - rewrite IH, length_app. lia.
Qed.

(** The copy loop fills the part of the buffer that is still zero with the
    chunks, one after the other. *)
Lemma copyChunks_concat chunks :
  forall (written padding : list Byte.byte),
    length padding = length (concat chunks) ->
    copyChunks chunks (written ++ padding)%list (length written)
    = Ok (written ++ concat chunks)%list.
Proof.
  induction chunks as [|chunk rest IH]; intros written padding Hpadding.
  - cbn [concat length] in Hpadding. destruct padding; [|discriminate].
    reflexivity.
  - cbn [concat] in Hpadding. rewrite length_app in Hpadding.
    cbn [copyChunks]. unfold Uint8Array_set.
    assert ((length written + length chunk
             <=? length (written ++ padding)%list)%nat = true) as ->
      by (apply Nat.leb_le; rewrite length_app; lia).
    rewrite take_app_length, drop_app_add.
    replace (length written + length chunk)%nat
      with (length (written ++ chunk)%list) by apply length_app.
    rewrite (app_assoc written chunk).
    rewrite (IH (written ++ chunk)%list (drop (length chunk) padding)).
    + cbn [concat]. rewrite app_assoc. reflexivity.
    + rewrite length_drop. lia.
Qed.

Lemma readChunks_all chunks : readChunks (List.map Chunk chunks) = Ok chunks.
Proof.
  induction chunks as [|chunk rest IH]; [reflexivity|].
  cbn [List.map readChunks]. rewrite IH. reflexivity.
Qed.

Lemma readChunks_rejected before e after :
  readChunks (List.map Chunk before ++ ReadRejects e :: after)%list = Throw e.
Proof.
  induction before as [|chunk rest IH]; [reflexivity|].
  cbn [List.map app readChunks]. rewrite IH. reflexivity.
Qed.

Section TextToSpeech.
Context `{Deepgram}.

(** X21.  When the stream delivers its chunks and ends,
    [generateAudioFromText] returns the chunks joined in the order read,
    nothing lost or added, and the copy into the buffer never goes out of
    bounds; the model asked for is [aura-asteria-en] unless the options
    name one. *)
Theorem generateAudioFromText_joins_chunks options chunks :
  speak_request (text options) (default "aura-asteria-en" (model options))
  = Stream (List.map Chunk chunks) ->
  generateAudioFromText options = Ok (concat chunks).
Proof.
  intros Hstream. unfold generateAudioFromText.
  rewrite Hstream, readChunks_all, fold_left_lengths.
  pose proof (copyChunks_concat chunks []
                (replicate (0 + length (concat chunks)) Byte.x00)) as Hcopy.
  cbn [app length] in Hcopy. rewrite Hcopy; [reflexivity|].
  rewrite length_replicate. lia.
Qed.

(** X22.  Every failure of [generateAudioFromText] is reported as the same
    error: when the request rejects, when the response has no stream, and
    when a read rejects after any number of chunks, the thrown value is
    [Error "Failed to generate audio with Deepgram"]; the cause and the
    chunks already read are dropped. *)
Theorem generateAudioFromText_one_error options :
  (exists e,
     speak_request (text options) (default "aura-asteria-en" (model options))
     = RequestRejects e)
  \/ speak_request (text options) (default "aura-asteria-en" (model options))
     = NoStream
  \/ (exists before e after,
        speak_request (text options)
          (default "aura-asteria-en" (model options))
        = Stream (List.map Chunk before ++ ReadRejects e :: after)%list) ->
  generateAudioFromText options
  = Throw (Error "Failed to generate audio with Deepgram").
Proof.
  unfold generateAudioFromText.
  intros [[e ->]|[->|(before & e & after & ->)]]; try reflexivity.
  rewrite readChunks_rejected. reflexivity.
Qed.

End TextToSpeech.

Lemma generateAudioFromText_joins_chunks_witness :
  @generateAudioFromText Sample.deepgram
    {| text := "hello"; model := None; voice := None |}
  = Ok [Byte.x49; Byte.x44; Byte.x33].
Proof.
  apply (@generateAudioFromText_joins_chunks Sample.deepgram
           {| text := "hello"; model := None; voice := None |}
           [[Byte.x49; Byte.x44]; [Byte.x33]]).
  reflexivity.
Defined.

Lemma generateAudioFromText_one_error_witness :
  @generateAudioFromText Sample.deepgram
    {| text := ""; model := Some "aura-luna-en"; voice := None |}
  = Throw (Error "Failed to generate audio with Deepgram").
Proof.
  apply (@generateAudioFromText_one_error Sample.deepgram
           {| text := ""; model := Some "aura-luna-en"; voice := None |}).
  right. left. reflexivity.
Defined.
